(** * prett6.project: the dictionary-backed property tree

    A shallow embedding of [src/prett6/project.py]: the document root
    ([AbstractProject] with [SaveInterface]), the tree items that delegate
    their value to the root's backing dictionary ([AbstractProjectItem] and
    its variants) and the [Enum] helper.

    Python objects that are mutated through several references (the backing
    dictionary of a project, an item, a project) live in a [heap] and are
    named by a location; every method is a function of the heap that returns
    either a value or a raised exception, together with the heap it leaves
    behind. *)

From Stdlib Require Import ZArith Ascii.
From stdpp Require Import base option list strings gmap.

Set Warnings "-register-all".

Open Scope string_scope.
Open Scope list_scope.

(** ** Raw values *)

(** What [json.load] produces and what the backing dictionary stores.  A
    float is carried as the finite double [m * 2^e]; nothing in project.py
    computes with one. *)
Inductive json :=
| JNull
| JBool (b : bool)
| JInt (z : Z)
| JFloat (m e : Z)
| JStr (s : string)
| JArr (l : list json)
| JObj (d : gmap string json).

(** Python's [None]. *)
Definition PyNone : json := JNull.

(** [x == s] for a Python value [x] and a [str] [s]: only an equal string is
    equal to a string. *)
Definition py_eq_str (x : json) (s : string) : bool :=
  match x with
  | JStr t => bool_decide (t = s)
  | _ => false
  end.

(** [d.get(k)] / [d.get(k, None)]: an absent key reads as [None]. *)
Definition dict_get (d : gmap string json) (k : string) : json :=
  default PyNone (d !! k).

(** ** Objects *)

Definition loc := positive.

(** A dictionary handed to a method: either the backing dictionary object of
    a project (what [project.value] returns, by reference) or some other
    dictionary that no project owns. *)
Inductive dict_ref :=
| BackingOf (p : loc)
| Fresh (d : gmap string json).

(** A member of an [Enum] subclass: [s.name] and [s.value]. *)
Record member := Member { member_name : string; member_value : string }.

(** An [Enum] subclass: its members as the class body lists them. *)
Definition EnumClass := list member.

(** What can be assigned to an attribute of a project in this model. *)
Inductive pyobj :=
| ObjItem (x : loc)
| ObjDict (r : dict_ref)
| ObjNone
| ObjInt (z : Z)
| ObjStr (s : string).

(** The concrete item classes of project.py.  [ProjectItem] stands for
    [AbstractProjectItem] and its subclasses whose body is [pass]. *)
Inductive item_class :=
| ProjectItem
| TimePointItem (t_format : string)
| EnumItem (enum : option EnumClass).

Module Project.
(** An [AbstractProject] instance.  [value] is the dictionary memoised by
    [get_value] ([self._create(dict)], empty when first asked for);
    [children] the list memoised by the [children] property; [changed] the
    slots connected to the [changed] signal, oldest first; [attrs] the
    instance attributes bound through [__setattr__]; [path] and [name] what
    the two properties of [SaveInterface] return ([None] unless a subclass
    overrides them). *)
Record t := mk {
  value : gmap string json;
  children : list loc;
  changed : list loc;
  attrs : gmap string pyobj;
  path : option string;
  name : option string
}.

Definition set_value (f : gmap string json → gmap string json) (p : t) : t :=
  mk (f (value p)) (children p) (changed p) (attrs p) (path p) (name p).
Definition set_children (f : list loc → list loc) (p : t) : t :=
  mk (value p) (f (children p)) (changed p) (attrs p) (path p) (name p).
Definition set_changed (f : list loc → list loc) (p : t) : t :=
  mk (value p) (children p) (f (changed p)) (attrs p) (path p) (name p).
Definition set_attrs (f : gmap string pyobj → gmap string pyobj) (p : t) : t :=
  mk (value p) (children p) (changed p) (f (attrs p)) (path p) (name p).
End Project.

Module Item.
(** An [AbstractProjectItem] instance.  [name] is the string memoised by
    the [name] property ([self._create(str)], empty until assigned) and
    [self_storage] the slot of the property of that name ([None] until
    assigned). *)
Record t := mk {
  parent : option loc;
  name : string;
  self_storage : json;
  class : item_class
}.

Definition set_name (n : string) (i : t) : t :=
  mk (parent i) n (self_storage i) (class i).
Definition set_self_storage (v : json) (i : t) : t :=
  mk (parent i) (name i) v (class i).
End Item.

(** What an observer of the notification channel sees. *)
Inductive event :=
| Emit (sender : loc) (payload : gmap string json)
| CheckChange (receiver : loc) (payload : option (gmap string json)).

Record heap := Heap {
  projects : gmap loc Project.t;
  items : gmap loc Item.t;
  files : gmap string string;
  clock : Z;
  trace : list event
}.

Definition with_projects (f : gmap loc Project.t → gmap loc Project.t) (h : heap) : heap :=
  Heap (f (projects h)) (items h) (files h) (clock h) (trace h).
Definition with_items (f : gmap loc Item.t → gmap loc Item.t) (h : heap) : heap :=
  Heap (projects h) (f (items h)) (files h) (clock h) (trace h).
Definition with_files (f : gmap string string → gmap string string) (h : heap) : heap :=
  Heap (projects h) (items h) (f (files h)) (clock h) (trace h).
Definition with_trace (f : list event → list event) (h : heap) : heap :=
  Heap (projects h) (items h) (files h) (clock h) (f (trace h)).

(** ** Computations that may raise *)

Inductive exn :=
| FileNotFoundError
| AssertionError
| ValueError
| AttributeError
| TypeError.

Inductive outcome (A : Type) :=
| Return (a : A)
| Raise (e : exn).
Arguments Return {A} a.
Arguments Raise {A} e.

(** A method body: it runs on a heap, returns or raises, and leaves a heap. *)
Definition Py (A : Type) : Type := heap → outcome A * heap.

#[global] Instance Py_ret : MRet Py := λ A a h, (Return a, h).
#[global] Instance Py_bind : MBind Py := λ A B f m h,
  match m h with
  | (Return a, h') => f a h'
  | (Raise e, h') => (Raise e, h')
  end.

Definition raise {A} (e : exn) : Py A := λ h, (Raise e, h).
Definition get_heap : Py heap := λ h, (Return h, h).
Definition modify_heap (f : heap → heap) : Py unit := λ h, (Return tt, f h).

(** The heap a computation leaves, whatever its outcome. *)
Definition exec {A} (m : Py A) (h : heap) : heap := (m h).2.

(** Run [f] on every element, left to right, stopping at the first raise. *)
Fixpoint for_each {A} (f : A → Py unit) (l : list A) : Py unit :=
  match l with
  | [] => mret tt
  | x :: l' => _ ← f x; for_each f l'
  end.

(** Using [p] as a project: an object that is not one has none of the
    methods, which Python reports as [AttributeError]. *)
Definition the_project (p : loc) : Py Project.t :=
  h ← get_heap;
  match projects h !! p with
  | Some pr => mret pr
  | None => raise AttributeError
  end.

Definition the_item (x : loc) : Py Item.t :=
  h ← get_heap;
  match items h !! x with
  | Some it => mret it
  | None => raise AttributeError
  end.

Definition update_project (p : loc) (f : Project.t → Project.t) : Py unit :=
  pr ← the_project p;
  modify_heap (with_projects <[p := f pr]>).

Definition update_item (x : loc) (f : Item.t → Item.t) : Py unit :=
  it ← the_item x;
  modify_heap (with_items <[x := f it]>).

Definition log (e : event) : Py unit :=
  modify_heap (with_trace (λ t, t ++ [e])).

(** ** Dictionaries by reference *)

Definition dict_read (r : dict_ref) : Py (gmap string json) :=
  match r with
  | BackingOf p => pr ← the_project p; mret (Project.value pr)
  | Fresh d => mret d
  end.

(** [r.clear()].  Only backing dictionaries are ever the receiver. *)
Definition dict_clear (r : dict_ref) : Py unit :=
  match r with
  | BackingOf p => update_project p (Project.set_value (λ _, ∅))
  | Fresh _ => mret tt
  end.

Definition dict_merge (r : dict_ref) (d : gmap string json) : Py unit :=
  match r with
  | BackingOf p => update_project p (Project.set_value (λ m, d ∪ m))
  | Fresh _ => mret tt
  end.

(** [r.update(other)].  A dictionary is read when the update runs and its
    entries win over the receiver's.  A string is iterated as a sequence of
    key/value pairs: the empty one adds nothing and any other fails on its
    first one-character element.  [None], an [int] and an item as project.py
    defines it are neither mappings nor iterable. *)
Definition dict_update (r : dict_ref) (other : pyobj) : Py unit :=
  match other with
  | ObjDict o => d ← dict_read o; dict_merge r d
  | ObjStr "" => mret tt
  | ObjStr _ => raise ValueError
  | ObjNone | ObjInt _ | ObjItem _ => raise TypeError
  end.

(** ** The change notification channel *)

(** Modelled from the spec: [ChangedInterface.check_change], the slot every
    item connects to its parent's [changed] signal, is not in project.py.
    The spec gives it the task of letting the item notice that its slot
    changed; it is recorded here as an observation of the payload it was
    called with and touches nothing else. *)
Definition ChangedInterface_check_change (self : loc) (payload : option dict_ref) : Py unit :=
  match payload with
  | None => log (CheckChange self None)
  | Some r => d ← dict_read r; log (CheckChange self (Some d))
  end.

(** Modelled from the spec: the signal behind [changed] is not in
    project.py.  [emit(value)] "synchronously invokes every subscriber in
    subscription order"; [connect] appends a subscriber. *)
Definition SignalSender_emit (sender : loc) (payload : dict_ref) : Py unit :=
  pr ← the_project sender;
  d ← dict_read payload;
  _ ← log (Emit sender d);
  for_each (λ slot, ChangedInterface_check_change slot (Some payload)) (Project.changed pr).

Definition SignalSender_connect (sender : loc) (slot : loc) : Py unit :=
  update_project sender (Project.set_changed (λ l, l ++ [slot])).

(** ** AbstractProject *)

(** A new project object: nothing memoised yet, so an empty dictionary, no
    child, no subscriber; [path] and [name] are what its class makes the two
    properties return. *)
Definition AbstractProject_init (path name : option string) : Py loc :=
  h ← get_heap;
  let self := fresh (dom (projects h)) in
  _ ← modify_heap (with_projects <[self := Project.mk ∅ [] [] ∅ path name]>);
  mret self.

(** [get_value]: the memoised dictionary itself, not a copy. *)
Definition AbstractProject_get_value (self : loc) : Py dict_ref :=
  _ ← the_project self;
  mret (BackingOf self).

(** Modelled from the spec: [ValueModel] is not in project.py; reading its
    [value] property is [get_value()] and assigning it is [set_value(v)],
    as [EnumValueModel] spells out for its own class. *)
Definition ValueModel_value (self : loc) : Py dict_ref :=
  AbstractProject_get_value self.

(** [AbstractProject.set_value]: [self.value.clear()], then
    [self.value.update(value)], then [self.changed.emit(self.value)]. *)
Definition AbstractProject_set_value (self : loc) (value : pyobj) : Py unit :=
  d ← ValueModel_value self;
  _ ← dict_clear d;
  d ← ValueModel_value self;
  _ ← dict_update d value;
  d ← ValueModel_value self;
  SignalSender_emit self d.

(** [AbstractProject.get_property]: [self.value.get(name)]. *)
Definition AbstractProject_get_property (self : loc) (name : string) : Py json :=
  d ← ValueModel_value self;
  m ← dict_read d;
  mret (dict_get m name).

(** [AbstractProject.set_property]: [self.value.update({name: value})],
    then [self.changed.emit(self.value)]. *)
Definition AbstractProject_set_property (self : loc) (name : string) (value : json) : Py unit :=
  d ← ValueModel_value self;
  _ ← dict_update d (ObjDict (Fresh {[name := value]}));
  d ← ValueModel_value self;
  SignalSender_emit self d.

(** The [children] property: the list memoised by [self._create(list)]. *)
Definition AbstractProject_children (self : loc) : Py (list loc) :=
  pr ← the_project self;
  mret (Project.children pr).

(** The properties project.py declares without a setter. *)
Definition read_only_properties : list string :=
  ["path"; "name"; "filename"; "is_existing"; "children"].

(** [super().__setattr__(key, value)] on a project: a property of the class
    takes the assignment (the read-only ones refuse it, [value] runs
    [set_value]); any other name is bound on the instance. *)
Definition object_setattr (self : loc) (key : string) (value : pyobj) : Py unit :=
  if bool_decide (key ∈ read_only_properties) then
    _ ← the_project self; raise AttributeError
  else if bool_decide (key = "value") then
    AbstractProject_set_value self value
  else
    update_project self (Project.set_attrs <[key := value]>).

(** The [name] setter of an item: [self.assign(value)]. *)
Definition AbstractProjectItem_set_name (self : loc) (value : string) : Py unit :=
  update_item self (Item.set_name value).

(** [AbstractProject.__setattr__]: an item is given the key as its name,
    then the assignment goes on to [super().__setattr__]. *)
Definition AbstractProject_setattr (self : loc) (key : string) (value : pyobj) : Py unit :=
  _ ← match value with
      | ObjItem x => AbstractProjectItem_set_name x key
      | _ => mret tt
      end;
  object_setattr self key value.

(** ** AbstractProjectItem *)

(** [AbstractProjectItem.__init__]: the new object records its parent and,
    if it has one, appends itself to the parent's children and connects its
    [check_change] to the parent's [changed].  The subclasses' constructors
    call it first and then only record [t_format] or [enum], which [cls]
    carries. *)
Definition AbstractProjectItem_init (parent : option loc) (cls : item_class) : Py loc :=
  h ← get_heap;
  let self := fresh (dom (items h)) in
  _ ← modify_heap (with_items <[self := Item.mk parent "" PyNone cls]>);
  _ ← match parent with
      | Some p =>
          _ ← update_project p (Project.set_children (λ l, l ++ [self]));
          SignalSender_connect p self
      | None => mret tt
      end;
  mret self.

(** [AbstractProjectItem.get_value]: the parent's entry under the item's
    name, or the item's own storage when it has no parent. *)
Definition AbstractProjectItem_get_value (self : loc) : Py json :=
  it ← the_item self;
  match Item.parent it with
  | Some p => AbstractProject_get_property p (Item.name it)
  | None => mret (Item.self_storage it)
  end.

(** [AbstractProjectItem.set_value]: [parent.set_property(name, value)], or
    the item's own storage followed by [self.check_change()]. *)
Definition AbstractProjectItem_set_value (self : loc) (value : json) : Py unit :=
  it ← the_item self;
  match Item.parent it with
  | Some p => AbstractProject_set_property p (Item.name it) value
  | None =>
      _ ← update_item self (Item.set_self_storage value);
      ChangedInterface_check_change self None
  end.

(** Modelled from the spec: [StringItemInterface] is not in project.py; for
    a string item "raw value is already the semantic value; no coercion". *)
Definition StringItemInterface_get_string (self : loc) : Py json :=
  AbstractProjectItem_get_value self.

(** ** Enum *)

(** [for s in cls]: a member that repeats the value of an earlier one is an
    alias of it and is not iterated. *)
Fixpoint canonical_members (seen : list string) (cls : EnumClass) : list member :=
  match cls with
  | [] => []
  | s :: rest =>
      if bool_decide (member_value s ∈ seen) then canonical_members seen rest
      else s :: canonical_members (member_value s :: seen) rest
  end.

Definition Enum_iter (cls : EnumClass) : list member := canonical_members [] cls.

(** [Enum.get_values_list]: the values of the members, in order. *)
Definition Enum_get_values_list (cls : EnumClass) : list string :=
  member_value <$> Enum_iter cls.

(** The loop of [get_key_by_value]: the first member whose value equals
    [value] is returned; the [else] of the [for] returns the default. *)
Fixpoint get_key_loop {D} (ms : list member) (value : json) (default_value : D) : member + D :=
  match ms with
  | [] => inr default_value
  | s :: rest =>
      if py_eq_str value (member_value s) then inl s
      else get_key_loop rest value default_value
  end.

(** [get_key_by_value(value, default_value)]: the member found, or the
    default whatever object that is. *)
Definition Enum_get_key_by_value {D} (cls : EnumClass) (value : json) (default_value : D) : member + D :=
  get_key_loop (Enum_iter cls) value default_value.

(** [Enum.__eq__(self, s)]: [self.name == s]. *)
Definition Enum_eq (self : member) (s : json) : bool :=
  py_eq_str s (member_name self).

(** ** EnumItem *)

Record EnumProperty := mkEnumProperty { ep_parent : loc; ep_enum : option EnumClass }.

(** The [type] property of an [EnumItem]. *)
Definition EnumItem_type (self : loc) : Py EnumProperty :=
  it ← the_item self;
  match Item.class it with
  | EnumItem e => mret (mkEnumProperty self e)
  | _ => raise AttributeError
  end.

(** [EnumProperty.get_value]: [text = self.parent.get_string()], then
    [self.enum.get_key_by_value(text)], the default left at [None]. *)
Definition EnumProperty_get_value (self : EnumProperty) : Py (member + json) :=
  text ← StringItemInterface_get_string (ep_parent self);
  match ep_enum self with
  | Some e => mret (Enum_get_key_by_value e text PyNone)
  | None => raise AttributeError
  end.

(** [EnumProperty.set_value]: [self.parent.set_value(value.value)]. *)
Definition EnumProperty_set_value (self : EnumProperty) (value : member) : Py unit :=
  AbstractProjectItem_set_value (ep_parent self) (JStr (member_value value)).

(** ** SaveInterface and TimePointItem: the parts that reach outside *)

Definition starts_with_sep (s : string) : bool :=
  match s with
  | String c _ => bool_decide (c = "/"%char)
  | EmptyString => false
  end.

Fixpoint ends_with_sep (s : string) : bool :=
  match s with
  | EmptyString => false
  | String c EmptyString => bool_decide (c = "/"%char)
  | String _ rest => ends_with_sep rest
  end.

(** [os.path.join(a, b)] of posixpath. *)
Definition os_path_join (a b : string) : string :=
  if starts_with_sep b then b
  else if bool_decide (a = "") || ends_with_sep a then a +:+ b
  else a +:+ "/" +:+ b.

(** The [filename] property; joining [None] is a [TypeError]. *)
Definition SaveInterface_filename (self : loc) : Py string :=
  pr ← the_project self;
  match Project.path pr, Project.name pr with
  | Some a, Some b => mret (os_path_join a b)
  | _, _ => raise TypeError
  end.

(** [os.path.exists]: the files of the heap are the ones that exist. *)
Definition os_path_exists (filename : string) : Py bool :=
  h ← get_heap;
  mret (bool_decide (is_Some (files h !! filename))).

(** The [is_existing] property. *)
Definition SaveInterface_is_existing (self : loc) : Py bool :=
  filename ← SaveInterface_filename self;
  os_path_exists filename.

Record TimePointProperty := mkTimePointProperty { tp_parent : loc; tp_t_format : string }.

(** The [time] property of a [TimePointItem]. *)
Definition TimePointItem_time (self : loc) : Py TimePointProperty :=
  it ← the_item self;
  match Item.class it with
  | TimePointItem t_format => mret (mkTimePointProperty self t_format)
  | _ => raise AttributeError
  end.

(** Modelled from the spec: [StringProperty] is not in project.py; assigning
    its [value] stores the string through the owning item's [set_value]. *)
Definition StringProperty_set_value (self : TimePointProperty) (value : string) : Py unit :=
  AbstractProjectItem_set_value (tp_parent self) (JStr value).

Section External.
(** The JSON codec and the clock formatter are library code: [json_load]
    gives the parsed document or fails with a [ValueError] ([None]),
    [json_dump] renders a dictionary, [strftime] formats a time. *)
Variable json_load : string → option json.
Variable json_dump : gmap string json → string.
Variable strftime : string → Z → string.

(** [SaveInterface.load]: the existence check, then inside the [try] the
    parse, the two assertions and the assignment [self.value = obj], which
    on a project goes through [__setattr__]; both [except] clauses re-raise
    what they caught. *)
Definition SaveInterface_load (self : loc) (check_key check_value : string) : Py unit :=
  filename ← SaveInterface_filename self;
  found ← os_path_exists filename;
  if negb found then raise FileNotFoundError
  else
    h ← get_heap;
    match json_load (default "" (files h !! filename)) with
    | None => raise ValueError
    | Some obj =>
        match obj with
        | JObj d =>
            if py_eq_str (dict_get d check_key) check_value
            then AbstractProject_setattr self "value" (ObjDict (Fresh d))
            else raise AssertionError
        | _ => raise AssertionError
        end
    end.

(** [SaveInterface.save]: the file is opened for writing and receives the
    rendering of [self.value]. *)
Definition SaveInterface_save (self : loc) : Py unit :=
  filename ← SaveInterface_filename self;
  d ← ValueModel_value self;
  m ← dict_read d;
  modify_heap (with_files <[filename := json_dump m]>).

(** [TimePointProperty.update]: [self.value = time.strftime(self.t_format)]. *)
Definition TimePointProperty_update (self : TimePointProperty) : Py unit :=
  h ← get_heap;
  StringProperty_set_value self (strftime (tp_t_format self) (clock h)).
End External.

(** ** Vocabulary of the statements *)

(** What one emission of [changed] with payload [d] adds to the trace: the
    emission, then one call per connected slot in connection order. *)
Definition slots_called (d : gmap string json) (slots : list loc) : list event :=
  (λ x, CheckChange x (Some d)) <$> slots.

Definition notified (p : loc) (pr : Project.t) : list event :=
  Emit p (Project.value pr) :: slots_called (Project.value pr) (Project.changed pr).

(** The heap after project [p] became [pr'] and told its subscribers. *)
Definition wrote (p : loc) (pr' : Project.t) (h : heap) : heap :=
  with_trace (λ t, t ++ notified p pr') (with_projects <[p := pr']> h).

Definition is_Emit (e : event) : bool :=
  match e with Emit _ _ => true | CheckChange _ _ => false end.

Definition is_call_of (x : loc) (e : event) : bool :=
  match e with CheckChange y _ => bool_decide (x = y) | Emit _ _ => false end.

Definition emissions (t : list event) : nat := length (filter is_Emit t).
Definition calls_of (x : loc) (t : list event) : nat := length (filter (is_call_of x) t).
Definition subscriptions_of (x : loc) (slots : list loc) : nat :=
  length (filter (λ y, bool_decide (x = y)) slots).

(** What a dictionary argument holds on heap [h]. *)
Definition contents (r : dict_ref) (h : heap) : option (gmap string json) :=
  match r with
  | Fresh d => Some d
  | BackingOf q => Project.value <$> projects h !! q
  end.

(** What [update] finds in an argument that held [w] when [set_value] was
    called, once the backing dictionary of [p] has been cleared: the argument
    that is this very dictionary is empty by then. *)
Definition after_clear (r : dict_ref) (p : loc) (w : gmap string json) : gmap string json :=
  match r with
  | BackingOf q => if bool_decide (q = p) then ∅ else w
  | Fresh _ => w
  end.

(** The backing dictionary of [p] on heap [h] (empty if [p] is no project). *)
Definition backing (p : loc) (h : heap) : gmap string json :=
  default ∅ (Project.value <$> projects h !! p).

(** Single-key traffic on a document root. *)
Inductive root_call :=
| SetProperty (name : string) (value : json)
| GetProperty (name : string).

Definition run_root_call (p : loc) (c : root_call) : Py unit :=
  match c with
  | SetProperty name value => AbstractProject_set_property p name value
  | GetProperty name => _ ← AbstractProject_get_property p name; mret tt
  end.

(** The value a key holds after [calls], when it held [v] before. *)
Fixpoint last_written (k : string) (calls : list root_call) (v : json) : json :=
  match calls with
  | [] => v
  | SetProperty name value :: rest =>
      last_written k rest (if bool_decide (name = k) then value else v)
  | GetProperty _ :: rest => last_written k rest v
  end.

(** Every entry point of project.py, on any object of the heap, and the
    creation of a project. *)
Inductive api_call :=
| CallNewProject (path name : option string)
| CallGetValue (p : loc)
| CallSetValue (p : loc) (value : pyobj)
| CallGetProperty (p : loc) (name : string)
| CallSetProperty (p : loc) (name : string) (value : json)
| CallChildren (p : loc)
| CallSetattr (p : loc) (key : string) (value : pyobj)
| CallLoad (p : loc) (check_key check_value : string)
| CallSave (p : loc)
| CallIsExisting (p : loc)
| CallNewItem (parent : option loc) (cls : item_class)
| CallItemGetValue (x : loc)
| CallItemSetValue (x : loc) (value : json)
| CallEnumGetValue (x : loc)
| CallEnumSetValue (x : loc) (value : member)
| CallTimeUpdate (x : loc).

(** The calls that replace a whole dictionary: [set_value], the assignment
    to [value] that runs it, and [load], which makes that assignment. *)
Definition is_bulk_replace (c : api_call) : bool :=
  match c with
  | CallSetValue _ _ | CallLoad _ _ _ => true
  | CallSetattr _ key _ => bool_decide (key = "value")
  | _ => false
  end.

Definition discard {A} (m : Py A) : Py unit := _ ← m; mret tt.

Section RunApi.
Variable json_load : string → option json.
Variable json_dump : gmap string json → string.
Variable strftime : string → Z → string.

Definition run_api_call (c : api_call) : Py unit :=
  match c with
  | CallNewProject path name => discard (AbstractProject_init path name)
  | CallGetValue p => discard (AbstractProject_get_value p)
  | CallSetValue p value => AbstractProject_set_value p value
  | CallGetProperty p name => discard (AbstractProject_get_property p name)
  | CallSetProperty p name value => AbstractProject_set_property p name value
  | CallChildren p => discard (AbstractProject_children p)
  | CallSetattr p key value => AbstractProject_setattr p key value
  | CallLoad p check_key check_value => SaveInterface_load json_load p check_key check_value
  | CallSave p => SaveInterface_save json_dump p
  | CallIsExisting p => discard (SaveInterface_is_existing p)
  | CallNewItem parent cls => discard (AbstractProjectItem_init parent cls)
  | CallItemGetValue x => discard (AbstractProjectItem_get_value x)
  | CallItemSetValue x value => AbstractProjectItem_set_value x value
  | CallEnumGetValue x => discard (prop ← EnumItem_type x; EnumProperty_get_value prop)
  | CallEnumSetValue x value => prop ← EnumItem_type x; EnumProperty_set_value prop value
  | CallTimeUpdate x => prop ← TimePointItem_time x; TimePointProperty_update strftime prop
  end.

(** A caller that goes on after an exception: the heap after all calls. *)
Definition run_api_calls (calls : list api_call) (h : heap) : heap :=
  foldl (λ h c, exec (run_api_call c) h) h calls.
End RunApi.

(** The decision table of [load]: what it returns or raises, and the heap
    it leaves, from what the heap and the codec hold. *)
Definition load_outcome (json_load : string → option json)
    (p : loc) (check_key check_value : string) (h : heap) : outcome unit * heap :=
  match projects h !! p with
  | None => (Raise AttributeError, h)
  | Some pr =>
      match Project.path pr, Project.name pr with
      | Some a, Some b =>
          match files h !! os_path_join a b with
          | None => (Raise FileNotFoundError, h)
          | Some text =>
              match json_load text with
              | None => (Raise ValueError, h)
              | Some (JObj d) =>
                  if py_eq_str (dict_get d check_key) check_value
                  then (Return tt, wrote p (Project.set_value (λ _, d) pr) h)
                  else (Raise AssertionError, h)
              | Some _ => (Raise AssertionError, h)
              end
          end
      | _, _ => (Raise TypeError, h)
      end
  end.

(** An item stores its value somewhere: in itself, or in a parent that is a
    project. *)
Definition well_parented (h : heap) (it : Item.t) : Prop :=
  match Item.parent it with
  | Some p => is_Some (projects h !! p)
  | None => True
  end.

(** The raw value an item reads: its slot in the parent's dictionary, or
    its own storage. *)
Definition stored (h : heap) (it : Item.t) : json :=
  match Item.parent it with
  | Some p => dict_get (backing p h) (Item.name it)
  | None => Item.self_storage it
  end.

(** Every project keeps the keys it has. *)
Definition keys_kept (h h' : heap) : Prop :=
  ∀ p pr, projects h !! p = Some pr →
    ∃ pr', projects h' !! p = Some pr' ∧ dom (Project.value pr) ⊆ dom (Project.value pr').

(** Every item is what it was. *)
Definition same_items (h h' : heap) : Prop := items h' = items h.

(** A method body never leaves a heap unrelated by [R] to the one it
    found, whether it returns or raises. *)
Definition respects (R : heap → heap → Prop) {A} (m : Py A) : Prop :=
  ∀ h, R h (exec m h).

(** The backing dictionary as single-key traffic shapes it. *)
Definition replay (calls : list root_call) (d : gmap string json) : gmap string json :=
  foldl (λ d c, match c with
                | SetProperty name value => <[name := value]> d
                | GetProperty _ => d
                end) d calls.

(** ** A small document used in the examples *)

Definition Color : EnumClass := [Member "RED" "red"; Member "GREEN" "green"].

Definition demo_root : Project.t :=
  Project.mk {["kind" := JStr "project"; "mode" := JStr "purple"]}
             [2; 3; 4]%positive [2; 3; 4]%positive ∅
             (Some "/tmp") (Some "demo.json").

Definition demo_items : gmap loc Item.t :=
  {[ 2%positive := Item.mk (Some 1%positive) "width" PyNone ProjectItem;
     3%positive := Item.mk (Some 1%positive) "mode" PyNone (EnumItem (Some Color));
     4%positive := Item.mk (Some 1%positive) "stamp" PyNone (TimePointItem "%H:%M") ]}.

Definition demo_heap : heap :=
  Heap {[ 1%positive := demo_root ]} demo_items ∅ 0 [].

(** A fresh interpreter: no object, no file, nothing observed. *)
Definition empty_heap : heap := Heap ∅ ∅ ∅ 0 [].

(** A root with two children attached by their constructors, then one
    single-key write on the root. *)
Definition fan_out_scenario : Py (loc * loc * loc) :=
  r ← AbstractProject_init None None;
  c1 ← AbstractProjectItem_init (Some r) ProjectItem;
  c2 ← AbstractProjectItem_init (Some r) ProjectItem;
  _ ← AbstractProject_set_property r "x" (JInt 1);
  mret (r, c1, c2).

(** The same document with a settings file whose text is [text]. *)
Definition demo_heap_with_file (text : string) : heap :=
  with_files <["/tmp/demo.json" := text]> demo_heap.

(** A codec that knows two documents. *)
Definition demo_json_load (text : string) : option json :=
  if bool_decide (text = "[]") then Some (JArr [])
  else if bool_decide (text = "{}") then Some (JObj ∅)
  else None.

Definition demo_json_dump (d : gmap string json) : string := "{}".

Definition demo_strftime (t_format : string) (now : Z) : string := t_format.

(** ** A storage root and a codec for the further examples *)

(** An item that is its own storage root. *)
Definition lone_item_heap : heap :=
  Heap ∅ {[ 1%positive := Item.mk None "" PyNone ProjectItem ]} ∅ 0 [].



(** * Properties *)

(** ** Running a method body *)

Lemma bind_Return {A B} (m : Py A) (f : A → Py B) h a h' :
  m h = (Return a, h') → (m ≫= f) h = f a h'.
Proof. intros E. unfold mbind, Py_bind. by rewrite E. Qed.

Lemma bind_Raise {A B} (m : Py A) (f : A → Py B) h e h' :
  m h = (Raise e, h') → (m ≫= f) h = (Raise e, h').
Proof. intros E. unfold mbind, Py_bind. by rewrite E. Qed.

Lemma the_project_Some h p pr :
  projects h !! p = Some pr → the_project p h = (Return pr, h).
Proof. intros E. unfold the_project, get_heap, mbind, Py_bind. by rewrite E. Qed.

Lemma the_project_None h p :
  projects h !! p = None → the_project p h = (Raise AttributeError, h).
Proof. intros E. unfold the_project, get_heap, mbind, Py_bind. by rewrite E. Qed.

Lemma the_item_Some h x it :
  items h !! x = Some it → the_item x h = (Return it, h).
Proof. intros E. unfold the_item, get_heap, mbind, Py_bind. by rewrite E. Qed.

Lemma the_item_None h x :
  items h !! x = None → the_item x h = (Raise AttributeError, h).
Proof. intros E. unfold the_item, get_heap, mbind, Py_bind. by rewrite E. Qed.

Lemma update_project_Some h p pr f :
  projects h !! p = Some pr →
  update_project p f h = (Return tt, with_projects <[p := f pr]> h).
Proof.
  intros E. unfold update_project.
  by rewrite (bind_Return _ _ _ _ _ (the_project_Some _ _ _ E)).
Qed.

Lemma update_item_Some h x it f :
  items h !! x = Some it →
  update_item x f h = (Return tt, with_items <[x := f it]> h).
Proof.
  intros E. unfold update_item.
  by rewrite (bind_Return _ _ _ _ _ (the_item_Some _ _ _ E)).
Qed.

Lemma get_value_Some h p pr :
  projects h !! p = Some pr →
  ValueModel_value p h = (Return (BackingOf p), h).
Proof.
  intros E. unfold ValueModel_value, AbstractProject_get_value.
  by rewrite (bind_Return _ _ _ _ _ (the_project_Some _ _ _ E)).
Qed.

Lemma dict_read_backing h p pr :
  projects h !! p = Some pr →
  dict_read (BackingOf p) h = (Return (Project.value pr), h).
Proof.
  intros E. unfold dict_read.
  by rewrite (bind_Return _ _ _ _ _ (the_project_Some _ _ _ E)).
Qed.

(** ** The notification channel *)

Lemma for_each_check_change p pr slots : ∀ h,
  projects h !! p = Some pr →
  for_each (λ slot, ChangedInterface_check_change slot (Some (BackingOf p))) slots h
  = (Return tt, with_trace (λ t, t ++ slots_called (Project.value pr) slots) h).
Proof.
  induction slots as [|x slots IH]; intros h Hp.
  - destruct h; cbn. unfold with_trace; simpl. by rewrite app_nil_r.
  - cbn [for_each].
    erewrite bind_Return; last first.
    { unfold ChangedInterface_check_change.
      erewrite bind_Return; [reflexivity | by apply dict_read_backing]. }
    rewrite IH; last done.
    destruct h; unfold with_trace; cbn. by rewrite <- app_assoc.
Qed.

Lemma emit_backing h p pr :
  projects h !! p = Some pr →
  SignalSender_emit p (BackingOf p) h
  = (Return tt, with_trace (λ t, t ++ notified p pr) h).
Proof.
  intros Hp. unfold SignalSender_emit.
  rewrite (bind_Return _ _ _ _ _ (the_project_Some _ _ _ Hp)).
  rewrite (bind_Return _ _ _ _ _ (dict_read_backing _ _ _ Hp)).
  erewrite bind_Return; last reflexivity.
  rewrite (for_each_check_change p pr); last done.
  destruct h; unfold with_trace, notified; cbn. by rewrite <- app_assoc.
Qed.

Lemma projects_wrote p pr' h : projects (wrote p pr' h) !! p = Some pr'.
Proof. unfold wrote; cbn. apply lookup_insert_eq. Qed.

Lemma trace_wrote p pr' h : trace (wrote p pr' h) = trace h ++ notified p pr'.
Proof. reflexivity. Qed.

Lemma emissions_app t1 t2 : emissions (t1 ++ t2) = emissions t1 + emissions t2.
Proof. unfold emissions. by rewrite filter_app, length_app. Qed.

Lemma emissions_slots_called d slots : emissions (slots_called d slots) = 0.
Proof. induction slots as [|x slots IH]; [done|]. exact IH. Qed.

Lemma emissions_notified p pr : emissions (notified p pr) = 1.
Proof.
  unfold notified. change (emissions (Emit p (Project.value pr) :: ?l)) with (S (emissions l)).
  by rewrite emissions_slots_called.
Qed.

Lemma calls_of_slots_called x d slots :
  calls_of x (slots_called d slots) = subscriptions_of x slots.
Proof.
  unfold calls_of, subscriptions_of.
  induction slots as [|y slots IH]; [done|].
  cbn [slots_called fmap list_fmap]. rewrite !filter_cons. cbn [is_call_of].
  fold (slots_called d slots).
  destruct (decide (bool_decide (x = y))); cbn [length]; by rewrite IH.
Qed.

Lemma calls_of_notified x p pr :
  calls_of x (notified p pr) = subscriptions_of x (Project.changed pr).
Proof.
  unfold notified. rewrite <- (calls_of_slots_called x (Project.value pr)).
  unfold calls_of. by rewrite filter_cons.
Qed.

(** ** The document root, one call at a time *)

Lemma get_property_run h p pr name :
  projects h !! p = Some pr →
  AbstractProject_get_property p name h = (Return (dict_get (Project.value pr) name), h).
Proof.
  intros Hp. unfold AbstractProject_get_property.
  rewrite (bind_Return _ _ _ _ _ (get_value_Some _ _ _ Hp)).
  by rewrite (bind_Return _ _ _ _ _ (dict_read_backing _ _ _ Hp)).
Qed.

Lemma set_property_run h p pr name value :
  projects h !! p = Some pr →
  AbstractProject_set_property p name value h
  = (Return tt, wrote p (Project.set_value <[name := value]> pr) h).
Proof.
  intros Hp. unfold AbstractProject_set_property.
  rewrite (bind_Return _ _ _ _ _ (get_value_Some _ _ _ Hp)).
  erewrite bind_Return; last first.
  { unfold dict_update. erewrite bind_Return; last reflexivity.
    unfold dict_merge. by apply update_project_Some. }
  assert (Project.set_value (λ m, {[name := value]} ∪ m) pr
          = Project.set_value <[name := value]> pr) as ->.
  { unfold Project.set_value. by rewrite insert_union_singleton_l. }
  set (pr' := Project.set_value _ pr).
  assert (projects (with_projects <[p := pr']> h) !! p = Some pr') as Hp'
    by apply lookup_insert_eq.
  rewrite (bind_Return _ _ _ _ _ (get_value_Some _ _ _ Hp')).
  by rewrite (emit_backing _ _ _ Hp').
Qed.

Lemma item_get_value_delegates h x it p pr :
  items h !! x = Some it → Item.parent it = Some p → projects h !! p = Some pr →
  AbstractProjectItem_get_value x h
  = (Return (dict_get (Project.value pr) (Item.name it)), h).
Proof.
  intros Hx Hpar Hp. unfold AbstractProjectItem_get_value.
  rewrite (bind_Return _ _ _ _ _ (the_item_Some _ _ _ Hx)), Hpar.
  by apply get_property_run.
Qed.

Lemma item_set_value_delegates h x it p pr v :
  items h !! x = Some it → Item.parent it = Some p → projects h !! p = Some pr →
  AbstractProjectItem_set_value x v h
  = (Return tt, wrote p (Project.set_value <[Item.name it := v]> pr) h).
Proof.
  intros Hx Hpar Hp. unfold AbstractProjectItem_set_value.
  rewrite (bind_Return _ _ _ _ _ (the_item_Some _ _ _ Hx)), Hpar.
  by apply set_property_run.
Qed.

(** C1 — delegation identity.  For an item [x] whose parent is the project
    [p] and whose name is [n], [x.set_value(v)] returns normally; afterwards
    the backing dictionary of [p] maps [n] to [v], [p.get_property(n)]
    returns [v] and [x.get_value()] returns [v], both without changing
    anything. *)
Theorem C1_delegation_identity h x it p pr n v :
  items h !! x = Some it →
  Item.parent it = Some p →
  Item.name it = n →
  projects h !! p = Some pr →
  ∃ h',
    AbstractProjectItem_set_value x v h = (Return tt, h') ∧
    backing p h' !! n = Some v ∧
    AbstractProject_get_property p n h' = (Return v, h') ∧
    AbstractProjectItem_get_value x h' = (Return v, h').
Proof.
  intros Hx Hpar Hn Hp.
  set (pr' := Project.set_value <[n := v]> pr).
  exists (wrote p pr' h).
  assert (projects (wrote p pr' h) !! p = Some pr') as Hp' by apply projects_wrote.
  assert (Project.value pr' !! n = Some v) as Hv by apply lookup_insert_eq.
  repeat split.
  - subst n. by apply item_set_value_delegates.
  - unfold backing. by rewrite Hp'.
  - rewrite (get_property_run _ _ _ n Hp'). unfold dict_get. by rewrite Hv.
  - rewrite (item_get_value_delegates _ x it p pr'); [|done..].
    unfold dict_get. by rewrite Hn, Hv.
Qed.

Lemma C1_delegation_identity_witness :
  ∃ h',
    AbstractProjectItem_set_value 2%positive (JStr "10") demo_heap = (Return tt, h') ∧
    AbstractProject_get_property 1%positive "width" h' = (Return (JStr "10"), h') ∧
    AbstractProjectItem_get_value 2%positive h' = (Return (JStr "10"), h').
Proof.
  destruct (C1_delegation_identity demo_heap 2%positive
              (Item.mk (Some 1%positive) "width" PyNone ProjectItem)
              1%positive demo_root "width" (JStr "10"))
    as (h' & Hset & _ & Hget & Hread); [reflexivity..|].
  exists h'. exact (conj Hset (conj Hget Hread)).
Defined.

Lemma subscriptions_of_cons x y slots :
  subscriptions_of x (y :: slots)
  = (if bool_decide (x = y) then 1 else 0) + subscriptions_of x slots.
Proof.
  unfold subscriptions_of. rewrite filter_cons.
  destruct (bool_decide (x = y)); by cbn.
Qed.

Lemma subscriptions_of_absent x slots :
  x ∉ slots → subscriptions_of x slots = 0.
Proof.
  induction slots as [|y slots IH]; intros Hx; [done|].
  apply not_elem_of_cons in Hx as [Hne Hx].
  rewrite subscriptions_of_cons, bool_decide_eq_false_2 by done.
  by apply IH.
Qed.

Lemma subscriptions_of_NoDup x slots :
  NoDup slots → x ∈ slots → subscriptions_of x slots = 1.
Proof.
  induction slots as [|y slots IH]; intros Hnd Hx; [by apply elem_of_nil in Hx|].
  apply NoDup_cons in Hnd as [Hy Hnd]. rewrite subscriptions_of_cons.
  destruct (decide (x = y)) as [->|Hne].
  - by rewrite bool_decide_eq_true_2, subscriptions_of_absent.
  - apply elem_of_cons in Hx as [?|Hx]; [done|].
    by rewrite bool_decide_eq_false_2, IH.
Qed.

(** C4 — a single-key write notifies with the whole dictionary.
    [p.set_property(name, value)] returns normally; the backing dictionary
    is the old one with [name] set to [value]; the trace grows by exactly
    one emission whose payload is that whole dictionary, followed by one
    call of each connected slot in connection order with the same payload,
    all of it before the call returns.  Each slot is called once per
    subscription, hence exactly once when no slot is connected twice. *)
Theorem C4_set_property_notifies h p pr name value :
  projects h !! p = Some pr →
  let d' := <[name := value]> (Project.value pr) in
  ∃ h',
    AbstractProject_set_property p name value h = (Return tt, h') ∧
    backing p h' = d' ∧
    trace h' = trace h ++ Emit p d' :: slots_called d' (Project.changed pr) ∧
    emissions (trace h') = S (emissions (trace h)) ∧
    (∀ x, calls_of x (trace h')
          = calls_of x (trace h) + subscriptions_of x (Project.changed pr)) ∧
    (NoDup (Project.changed pr) →
     ∀ x, x ∈ Project.changed pr → calls_of x (trace h') = S (calls_of x (trace h))) ∧
    items h' = items h ∧ files h' = files h.
Proof.
  intros Hp d'.
  set (pr' := Project.set_value <[name := value]> pr).
  exists (wrote p pr' h). split; [by apply set_property_run|].
  split; [unfold backing; by rewrite projects_wrote|].
  split; [done|].
  split; [rewrite trace_wrote, emissions_app, emissions_notified; lia|].
  assert (∀ x, calls_of x (trace (wrote p pr' h))
               = calls_of x (trace h) + subscriptions_of x (Project.changed pr)) as Hcalls.
  { intros x. rewrite trace_wrote.
    unfold calls_of at 1. rewrite filter_app, length_app.
    fold (calls_of x (trace h)) (calls_of x (notified p pr')).
    by rewrite calls_of_notified. }
  split; [done|]. split; [|done].
  intros Hnd x Hx. rewrite Hcalls, subscriptions_of_NoDup by done. lia.
Qed.

Lemma C4_set_property_notifies_witness :
  ∃ h',
    AbstractProject_set_property 1%positive "x" (JInt 1) demo_heap = (Return tt, h') ∧
    trace h' =
      let d' := <["x" := JInt 1]> (Project.value demo_root) in
      [Emit 1%positive d'; CheckChange 2%positive (Some d');
       CheckChange 3%positive (Some d'); CheckChange 4%positive (Some d')].
Proof.
  destruct (C4_set_property_notifies demo_heap 1%positive demo_root "x" (JInt 1))
    as (h' & Hrun & _ & Htrace & _); [reflexivity|].
  exists h'. exact (conj Hrun Htrace).
Defined.

(** The fan-out of the spec, with the children subscribed by their own
    constructors: both slots run once, the older subscription first. *)
Example fan_out_in_subscription_order :
  ∃ r c1 c2 h',
    fan_out_scenario empty_heap = (Return (r, c1, c2), h') ∧
    c1 ≠ c2 ∧
    trace h' = [Emit r {["x" := JInt 1]};
                CheckChange c1 (Some {["x" := JInt 1]});
                CheckChange c2 (Some {["x" := JInt 1]})].
Proof.
  exists 1%positive, 1%positive, 2%positive. eexists.
  split; [vm_compute; reflexivity|]. split; [discriminate|reflexivity].
Qed.

Lemma set_value_run h p pr r w :
  projects h !! p = Some pr →
  contents r h = Some w →
  AbstractProject_set_value p (ObjDict r) h
  = (Return tt, wrote p (Project.set_value (λ _, after_clear r p w) pr) h).
Proof.
  intros Hp Hr. unfold AbstractProject_set_value.
  rewrite (bind_Return _ _ _ _ _ (get_value_Some _ _ _ Hp)).
  erewrite bind_Return; last by apply update_project_Some.
  set (pr0 := Project.set_value (λ _, ∅) pr).
  set (h0 := with_projects <[p := pr0]> h).
  assert (projects h0 !! p = Some pr0) as Hp0 by apply lookup_insert_eq.
  rewrite (bind_Return _ _ _ _ _ (get_value_Some _ _ _ Hp0)).
  assert (dict_read r h0 = (Return (after_clear r p w), h0)) as Hread.
  { destruct r as [q|d]; cbn in Hr |- *.
    - case_bool_decide as Hq.
      + subst q. by rewrite (bind_Return _ _ _ _ _ (the_project_Some _ _ _ Hp0)).
      + destruct (projects h !! q) as [qr|] eqn:Hq'; [|done].
        injection Hr as <-.
        assert (projects h0 !! q = Some qr) as Hq0.
        { unfold h0; cbn. by rewrite lookup_insert_ne. }
        by rewrite (bind_Return _ _ _ _ _ (the_project_Some _ _ _ Hq0)).
    - by injection Hr as <-. }
  erewrite bind_Return; last first.
  { unfold dict_update. rewrite (bind_Return _ _ _ _ _ Hread).
    unfold dict_merge. by apply update_project_Some. }
  set (pr1 := Project.set_value _ pr0).
  assert (pr1 = Project.set_value (λ _, after_clear r p w) pr) as ->.
  { unfold pr1, pr0, Project.set_value; cbn. by rewrite (right_id_L ∅ (∪)). }
  set (pr' := Project.set_value _ pr).
  assert (with_projects <[p := pr']> h0 = with_projects <[p := pr']> h) as ->.
  { unfold h0, with_projects; cbn. by rewrite insert_insert_eq. }
  assert (projects (with_projects <[p := pr']> h) !! p = Some pr') as Hp'
    by apply lookup_insert_eq.
  rewrite (bind_Return _ _ _ _ _ (get_value_Some _ _ _ Hp')).
  by rewrite (emit_backing _ _ _ Hp').
Qed.

Lemma backing_wrote p pr' h : backing p (wrote p pr' h) = Project.value pr'.
Proof. unfold backing. by rewrite projects_wrote. Qed.

Lemma get_property_absent h p k :
  is_Some (projects h !! p) → backing p h !! k = None →
  AbstractProject_get_property p k h = (Return PyNone, h).
Proof.
  intros [pr Hp] Hk. rewrite (get_property_run _ _ _ k Hp).
  unfold backing in Hk. rewrite Hp in Hk. cbn in Hk.
  unfold dict_get. by rewrite Hk.
Qed.

(** C3 — bulk replace isolates.  [p.set_value(whole)] with a dictionary
    [whole] that holds [w] returns normally.  Afterwards the backing
    dictionary holds exactly what [whole] holds; it is [w] itself unless
    [whole] is the backing dictionary object, which the call has emptied;
    no key outside [w] is left, so [get_property] of such a key is [None];
    and the trace has grown by one emission carrying the new dictionary and
    the slot calls it causes.  In particular [set_value({"a": 1})] followed
    by [set_value({"b": 2})] leaves ["a"] reading [None] and ["b"] reading
    [2]. *)
Theorem C3_bulk_replace h p pr r w :
  projects h !! p = Some pr →
  contents r h = Some w →
  ∃ h',
    AbstractProject_set_value p (ObjDict r) h = (Return tt, h') ∧
    contents r h' = Some (backing p h') ∧
    (r ≠ BackingOf p → backing p h' = w) ∧
    (∀ k, w !! k = None →
       backing p h' !! k = None ∧
       AbstractProject_get_property p k h' = (Return PyNone, h')) ∧
    trace h' = trace h ++ Emit p (backing p h')
                 :: slots_called (backing p h') (Project.changed pr) ∧
    emissions (trace h') = S (emissions (trace h)) ∧
    ∃ h2,
      (_ ← AbstractProject_set_value p (ObjDict (Fresh {["a" := JInt 1]}));
       AbstractProject_set_value p (ObjDict (Fresh {["b" := JInt 2]}))) h
        = (Return tt, h2) ∧
      AbstractProject_get_property p "a" h2 = (Return PyNone, h2) ∧
      AbstractProject_get_property p "b" h2 = (Return (JInt 2), h2).
Proof.
  intros Hp Hr.
  set (pr' := Project.set_value (λ _, after_clear r p w) pr).
  exists (wrote p pr' h).
  assert (backing p (wrote p pr' h) = after_clear r p w) as Hb by apply backing_wrote.
  split; [by apply set_value_run|].
  split.
  { rewrite Hb. destruct r as [q|d]; cbn in Hr |- *.
    - case_bool_decide as Hq.
      + subst q. rewrite lookup_insert_eq. unfold pr'; cbn.
        by rewrite bool_decide_eq_true_2.
      + by rewrite lookup_insert_ne.
    - done. }
  split.
  { intros Hne. rewrite Hb. destruct r as [q|d]; cbn; [|done].
    case_bool_decide; [congruence|done]. }
  split.
  { intros k Hk.
    assert (backing p (wrote p pr' h) !! k = None) as Hk'.
    { rewrite Hb. destruct r as [q|d]; cbn; [|done]. by case_bool_decide. }
    split; [done|]. apply get_property_absent; [|done].
    rewrite projects_wrote. by eexists. }
  split; [by rewrite Hb|].
  split; [rewrite trace_wrote, emissions_app, emissions_notified; lia|].
  set (pa := Project.set_value (λ _, {["a" := JInt 1]}) pr).
  set (pb := Project.set_value (λ _, {["b" := JInt 2]}) pa).
  exists (wrote p pb (wrote p pa h)).
  assert (projects (wrote p pb (wrote p pa h)) !! p = Some pb) as Hpb
    by apply projects_wrote.
  split.
  { erewrite bind_Return; last by apply (set_value_run h p pr (Fresh _)).
    by apply (set_value_run _ p pa (Fresh _)); [apply projects_wrote|]. }
  by rewrite !(get_property_run _ _ _ _ Hpb).
Qed.

Lemma C3_bulk_replace_witness :
  ∃ h',
    AbstractProject_set_value 1%positive (ObjDict (Fresh {["b" := JInt 2]})) demo_heap
      = (Return tt, h') ∧
    backing 1%positive h' = {["b" := JInt 2]} ∧
    AbstractProject_get_property 1%positive "kind" h' = (Return PyNone, h').
Proof.
  destruct (C3_bulk_replace demo_heap 1%positive demo_root
              (Fresh {["b" := JInt 2]}) {["b" := JInt 2]})
    as (h' & Hrun & _ & Hw & Hgone & _); [reflexivity..|].
  exists h'. split; [exact Hrun|]. split; [by apply Hw|].
  by apply (Hgone "kind").
Defined.

(** What [set_value] does when handed the backing dictionary itself. *)
Lemma set_value_of_own_dictionary h p pr :
  projects h !! p = Some pr →
  ∃ h', AbstractProject_set_value p (ObjDict (BackingOf p)) h = (Return tt, h') ∧
        backing p h' = ∅.
Proof.
  intros Hp. eexists. split.
  - apply (set_value_run h p pr (BackingOf p) (Project.value pr) Hp).
    cbn. by rewrite Hp.
  - rewrite backing_wrote. cbn. by rewrite bool_decide_eq_true_2.
Qed.

(** ** Loading *)

Lemma filename_run h p pr a b :
  projects h !! p = Some pr →
  Project.path pr = Some a → Project.name pr = Some b →
  SaveInterface_filename p h = (Return (os_path_join a b), h).
Proof.
  intros Hp Ha Hb. unfold SaveInterface_filename.
  rewrite (bind_Return _ _ _ _ _ (the_project_Some _ _ _ Hp)).
  by rewrite Ha, Hb.
Qed.

Lemma setattr_value_run h p value :
  AbstractProject_setattr p "value" (ObjDict value) h
  = AbstractProject_set_value p (ObjDict value) h.
Proof. reflexivity. Qed.

Lemma load_run json_load p check_key check_value h :
  SaveInterface_load json_load p check_key check_value h
  = load_outcome json_load p check_key check_value h.
Proof.
  unfold load_outcome, SaveInterface_load.
  destruct (projects h !! p) as [pr|] eqn:Hp; last first.
  { apply bind_Raise. unfold SaveInterface_filename.
    apply bind_Raise. by apply the_project_None. }
  destruct (Project.path pr) as [a|] eqn:Ha; last first.
  { apply bind_Raise. unfold SaveInterface_filename.
    rewrite (bind_Return _ _ _ _ _ (the_project_Some _ _ _ Hp)). by rewrite Ha. }
  destruct (Project.name pr) as [b|] eqn:Hb; last first.
  { apply bind_Raise. unfold SaveInterface_filename.
    rewrite (bind_Return _ _ _ _ _ (the_project_Some _ _ _ Hp)). by rewrite Ha, Hb. }
  rewrite (bind_Return _ _ _ _ _ (filename_run _ _ _ _ _ Hp Ha Hb)).
  erewrite bind_Return; last reflexivity.
  destruct (files h !! os_path_join a b) as [text|] eqn:Hf.
  - rewrite bool_decide_eq_true_2 by by eexists. cbn [negb].
    erewrite bind_Return; last reflexivity.
    rewrite Hf. cbn [default from_option id].
    destruct (json_load text) as [[|?|?|? ?|?|?|d]|]; try reflexivity.
    destruct (py_eq_str (dict_get d check_key) check_value); [|reflexivity].
    rewrite setattr_value_run.
    by apply (set_value_run h p pr (Fresh d)).
  - rewrite bool_decide_eq_false_2 by (intros [? ?]; done). reflexivity.
Qed.

Lemma py_eq_str_true x s : py_eq_str x s = true ↔ x = JStr s.
Proof.
  destruct x; cbn; try (split; [done|congruence]).
  rewrite bool_decide_eq_true. split; congruence.
Qed.

(** C2 — load validation.  On a project whose [path] and [name] give the
    target file [f]: if [f] does not exist, [load] raises
    [FileNotFoundError] (NotFound); if the file parses to something that is
    not a dictionary, it raises [AssertionError] (InvalidFormat); if it
    parses to a dictionary that lacks [check_key] or maps it to anything
    but the string [check_value], it raises [AssertionError] as well. *)
Theorem C2_load_validation json_load h p pr a b check_key check_value :
  projects h !! p = Some pr →
  Project.path pr = Some a →
  Project.name pr = Some b →
  let f := os_path_join a b in
  let load := SaveInterface_load json_load p check_key check_value in
  (files h !! f = None → load h = (Raise FileNotFoundError, h)) ∧
  (∀ text obj,
     files h !! f = Some text → json_load text = Some obj →
     (∀ d, obj ≠ JObj d) →
     load h = (Raise AssertionError, h)) ∧
  (∀ text d,
     files h !! f = Some text → json_load text = Some (JObj d) →
     d !! check_key ≠ Some (JStr check_value) →
     load h = (Raise AssertionError, h)).
Proof.
  intros Hp Ha Hb f load. subst f load.
  repeat split.
  - intros Hf. rewrite load_run. unfold load_outcome.
    by rewrite Hp, Ha, Hb, Hf.
  - intros text obj Hf Hj Hobj. rewrite load_run. unfold load_outcome.
    rewrite Hp, Ha, Hb, Hf, Hj.
    destruct obj as [|?|?|? ?|?|?|d]; try reflexivity. by destruct (Hobj d).
  - intros text d Hf Hj Hk. rewrite load_run. unfold load_outcome.
    rewrite Hp, Ha, Hb, Hf, Hj.
    destruct (py_eq_str (dict_get d check_key) check_value) eqn:E; [|reflexivity].
    apply py_eq_str_true in E. unfold dict_get in E.
    destruct (d !! check_key) as [x|]; cbn in E; [|done]. by subst x.
Qed.

Lemma C2_load_validation_witness :
  SaveInterface_load demo_json_load 1%positive "kind" "project" demo_heap
    = (Raise FileNotFoundError, demo_heap) ∧
  SaveInterface_load demo_json_load 1%positive "kind" "project" (demo_heap_with_file "[]")
    = (Raise AssertionError, demo_heap_with_file "[]") ∧
  SaveInterface_load demo_json_load 1%positive "kind" "project" (demo_heap_with_file "{}")
    = (Raise AssertionError, demo_heap_with_file "{}").
Proof.
  split; [|split].
  - apply (C2_load_validation demo_json_load demo_heap 1%positive demo_root
             "/tmp" "demo.json" "kind" "project"); reflexivity.
  - apply (C2_load_validation demo_json_load (demo_heap_with_file "[]") 1%positive
             demo_root "/tmp" "demo.json" "kind" "project" eq_refl eq_refl eq_refl)
      with (text := "[]") (obj := JArr []); [reflexivity | reflexivity | discriminate].
  - apply (C2_load_validation demo_json_load (demo_heap_with_file "{}") 1%positive
             demo_root "/tmp" "demo.json" "kind" "project" eq_refl eq_refl eq_refl)
      with (text := "{}") (d := ∅); [reflexivity | reflexivity | discriminate].
Defined.

(** C9 — a failed load changes nothing.  Whatever [load] raises (the file
    is missing, its text does not parse, the document is not a dictionary,
    the sentinel does not match, or the object has no file name at all),
    the heap it leaves is the heap it found: same backing dictionary, same
    trace, so no notification went out. *)
Theorem C9_failed_load_changes_nothing json_load h p check_key check_value e h' :
  SaveInterface_load json_load p check_key check_value h = (Raise e, h') →
  h' = h ∧ backing p h' = backing p h ∧ trace h' = trace h.
Proof.
  rewrite load_run. unfold load_outcome. intros E.
  assert (h' = h) as ->; [|done].
  destruct (projects h !! p) as [pr|]; [|congruence].
  destruct (Project.path pr), (Project.name pr); try congruence.
  destruct (files h !! _); [|congruence].
  destruct (json_load _) as [[|?|?|? ?|?|?|d]|]; try congruence.
  destruct (py_eq_str _ _); congruence.
Qed.

Lemma C9_failed_load_changes_nothing_witness :
  SaveInterface_load demo_json_load 1%positive "kind" "project" (demo_heap_with_file "{}")
    = (Raise AssertionError, demo_heap_with_file "{}") ∧
  backing 1%positive (demo_heap_with_file "{}") = Project.value demo_root.
Proof.
  split; [reflexivity|].
  apply (C9_failed_load_changes_nothing demo_json_load (demo_heap_with_file "{}")
           1%positive "kind" "project" AssertionError (demo_heap_with_file "{}")
           eq_refl).
Defined.

(** The other side of the table: when every check passes, [load] returns,
    the backing dictionary is the parsed document and one notification
    carries it. *)
Lemma load_success json_load h p pr a b text d check_key check_value :
  projects h !! p = Some pr →
  Project.path pr = Some a → Project.name pr = Some b →
  files h !! os_path_join a b = Some text →
  json_load text = Some (JObj d) →
  d !! check_key = Some (JStr check_value) →
  ∃ h',
    SaveInterface_load json_load p check_key check_value h = (Return tt, h') ∧
    backing p h' = d ∧
    trace h' = trace h ++ Emit p d :: slots_called d (Project.changed pr).
Proof.
  intros Hp Ha Hb Hf Hj Hk. eexists. split.
  - rewrite load_run. unfold load_outcome, dict_get.
    rewrite Hp, Ha, Hb, Hf, Hj, Hk. cbn.
    by rewrite bool_decide_eq_true_2.
  - by rewrite backing_wrote.
Qed.

(** ** What a method body cannot disturb *)

Section Respects.
Context (R : heap → heap → Prop) `{!PreOrder R}.
Hypothesis R_trace : ∀ f h, R h (with_trace f h).

Lemma respects_ret {A} (a : A) : respects R (mret a : Py A).
Proof. intros h. reflexivity. Qed.

Lemma respects_raise {A} e : respects R (raise e : Py A).
Proof. intros h. reflexivity. Qed.

Lemma respects_get_heap : respects R get_heap.
Proof. intros h. reflexivity. Qed.

Lemma respects_bind {A B} (m : Py A) (f : A → Py B) :
  respects R m → (∀ a, respects R (f a)) → respects R (m ≫= f).
Proof.
  intros Hm Hf h. unfold exec, mbind, Py_bind.
  specialize (Hm h). unfold exec in Hm.
  destruct (m h) as [[a|e] h1]; cbn in *; [|done].
  etrans; [exact Hm|]. apply Hf.
Qed.

Lemma respects_discard {A} (m : Py A) : respects R m → respects R (discard m).
Proof. intros Hm. apply respects_bind; [done|]. intros; apply respects_ret. Qed.

Lemma respects_modify f : (∀ h, R h (f h)) → respects R (modify_heap f).
Proof. intros Hf h. apply Hf. Qed.

Lemma respects_for_each {A} (f : A → Py unit) l :
  (∀ a, respects R (f a)) → respects R (for_each f l).
Proof.
  intros Hf. induction l as [|a l IH]; [apply respects_ret|].
  cbn [for_each]. apply respects_bind; [apply Hf | by intros].
Qed.

Lemma respects_the_project p : respects R (the_project p).
Proof.
  apply respects_bind; [apply respects_get_heap|]. intros h.
  destruct (projects h !! p); [apply respects_ret | apply respects_raise].
Qed.

Lemma respects_the_item x : respects R (the_item x).
Proof.
  apply respects_bind; [apply respects_get_heap|]. intros h.
  destruct (items h !! x); [apply respects_ret | apply respects_raise].
Qed.

Lemma respects_log e : respects R (log e).
Proof. apply respects_modify. intros h. apply R_trace. Qed.

Lemma respects_dict_read r : respects R (dict_read r).
Proof.
  destruct r; [|apply respects_ret].
  apply respects_bind; [apply respects_the_project | intros; apply respects_ret].
Qed.

Lemma respects_check_change x payload :
  respects R (ChangedInterface_check_change x payload).
Proof.
  destruct payload; [|apply respects_log].
  apply respects_bind; [apply respects_dict_read | intros; apply respects_log].
Qed.

Lemma respects_emit p r : respects R (SignalSender_emit p r).
Proof.
  apply respects_bind; [apply respects_the_project | intros pr].
  apply respects_bind; [apply respects_dict_read | intros d].
  apply respects_bind; [apply respects_log | intros _].
  apply respects_for_each. intros; apply respects_check_change.
Qed.

Lemma respects_value p : respects R (ValueModel_value p).
Proof.
  apply respects_bind; [apply respects_the_project | intros; apply respects_ret].
Qed.

Lemma respects_get_property p name : respects R (AbstractProject_get_property p name).
Proof.
  apply respects_bind; [apply respects_value | intros d].
  apply respects_bind; [apply respects_dict_read | intros; apply respects_ret].
Qed.

Lemma respects_update_project p f :
  (∀ h pr, projects h !! p = Some pr → R h (with_projects <[p := f pr]> h)) →
  respects R (update_project p f).
Proof.
  intros Hf h. unfold exec, update_project, the_project, get_heap, mbind, Py_bind.
  destruct (projects h !! p) as [pr|] eqn:Hp; cbn; [by apply Hf | reflexivity].
Qed.

Lemma respects_update_item x f :
  (∀ h it, items h !! x = Some it → R h (with_items <[x := f it]> h)) →
  respects R (update_item x f).
Proof.
  intros Hf h. unfold exec, update_item, the_item, get_heap, mbind, Py_bind.
  destruct (items h !! x) as [it|] eqn:Hx; cbn; [by apply Hf | reflexivity].
Qed.

Lemma respects_filename p : respects R (SaveInterface_filename p).
Proof.
  apply respects_bind; [apply respects_the_project | intros pr].
  destruct (Project.path pr), (Project.name pr);
    apply respects_ret || apply respects_raise.
Qed.

Lemma respects_exists f : respects R (os_path_exists f).
Proof.
  apply respects_bind; [apply respects_get_heap | intros; apply respects_ret].
Qed.

(** A single-key write, given that merging into a dictionary is harmless. *)
Lemma respects_set_property p name value :
  (∀ q d, respects R (update_project q (Project.set_value (λ m, d ∪ m)))) →
  respects R (AbstractProject_set_property p name value).
Proof.
  intros Hmerge.
  apply respects_bind; [apply respects_value | intros d].
  apply respects_bind.
  { apply respects_bind; [apply respects_dict_read | intros m].
    destruct d; [apply Hmerge | apply respects_ret]. }
  intros _. apply respects_bind; [apply respects_value | intros d'].
  apply respects_emit.
Qed.
End Respects.

(** Decompose a goal [respects R m] along the structure of [m]; what is
    left are the heap updates [R] has to be checked against. *)
Ltac respects_tac :=
  repeat first
    [ match goal with
      | |- ∀ _, _ => intro
      | |- PreOrder _ => apply _
      | H : _ |- respects _ _ => simple apply H
      | H : ∀ f h, _ h (with_trace f h) |- _ _ (with_trace _ _) => simple apply H
      end
    | simple apply respects_ret | simple apply respects_raise
    | simple apply respects_get_heap
    | simple apply respects_the_project | simple apply respects_the_item
    | simple apply respects_log | simple apply respects_dict_read
    | simple apply respects_check_change | simple apply respects_emit
    | simple apply respects_value | simple apply respects_get_property
    | simple apply respects_filename | simple apply respects_exists
    | simple apply respects_discard | simple apply respects_for_each
    | match goal with
      | |- respects _ (match ?x with _ => _ end) => destruct x
      | |- respects _ (if ?b then _ else _) => destruct b
      end
    | simple apply respects_bind ].

#[local] Instance same_items_preorder : PreOrder same_items.
Proof.
  split; [by intros h | intros h1 h2 h3 H12 H23].
  unfold same_items in *. congruence.
Qed.

Lemma same_items_trace f h : same_items h (with_trace f h).
Proof. reflexivity. Qed.

Lemma same_items_update_project q f : respects same_items (update_project q f).
Proof. apply respects_update_project; [apply _|]. by intros h pr _. Qed.

Lemma same_items_set_value p value :
  respects same_items (AbstractProject_set_value p value).
Proof.
  pose proof same_items_update_project as Hup.
  pose proof same_items_trace as Htr.
  unfold AbstractProject_set_value, dict_clear, dict_update, dict_merge.
  respects_tac.
Qed.

Lemma same_items_object_setattr p key value :
  respects same_items (object_setattr p key value).
Proof.
  pose proof same_items_update_project as Hup.
  pose proof same_items_set_value as Hset.
  unfold object_setattr. respects_tac.
Qed.

Lemma set_name_run h x it key :
  items h !! x = Some it →
  AbstractProjectItem_set_name x key h
  = (Return tt, with_items <[x := Item.set_name key it]> h).
Proof. apply update_item_Some. Qed.

(** C5 — assigning an item as an attribute names it at once.
    [p.__setattr__(key, x)] for an item [x] first gives [x] the name [key]
    and only then runs the attribute binding, on the heap where [x] already
    carries that name.  Whatever the binding does (it refuses the read-only
    properties, it treats [value] as a bulk replace), [x] is named [key]
    when the call is over; for any other [key] on a project the call
    returns normally with the attribute bound to [x].  From then on
    [x.get_value()] is [parent.get_property(key)] and [x.set_value(v)] is
    [parent.set_property(key, v)]. *)
Theorem C5_setattr_names_item h p x it key :
  items h !! x = Some it →
  let named := with_items <[x := Item.set_name key it]> h in
  let h' := exec (AbstractProject_setattr p key (ObjItem x)) h in
  AbstractProjectItem_set_name x key h = (Return tt, named) ∧
  AbstractProject_setattr p key (ObjItem x) h = object_setattr p key (ObjItem x) named ∧
  items h' !! x = Some (Item.set_name key it) ∧
  (∀ pr, projects h !! p = Some pr →
     key ∉ read_only_properties → key ≠ "value" →
     AbstractProject_setattr p key (ObjItem x) h
     = (Return tt, with_projects <[p := Project.set_attrs <[key := ObjItem x]> pr]> named)) ∧
  (∀ q, Item.parent it = Some q →
     AbstractProjectItem_get_value x h' = AbstractProject_get_property q key h' ∧
     ∀ v, AbstractProjectItem_set_value x v h' = AbstractProject_set_property q key v h').
Proof.
  intros Hx named h'.
  assert (AbstractProject_setattr p key (ObjItem x) h
          = object_setattr p key (ObjItem x) named) as Hrun.
  { unfold AbstractProject_setattr.
    by rewrite (bind_Return _ _ _ _ _ (set_name_run _ _ _ key Hx)). }
  assert (items h' !! x = Some (Item.set_name key it)) as Hx'.
  { pose proof (same_items_object_setattr p key (ObjItem x) named) as Hsame.
    unfold same_items, exec in Hsame.
    unfold h', exec. rewrite Hrun, Hsame.
    apply lookup_insert_eq. }
  split; [by apply set_name_run|].
  split; [done|].
  split; [done|].
  split.
  - intros pr Hp Hro Hval. rewrite Hrun. unfold object_setattr.
    rewrite bool_decide_eq_false_2 by done.
    rewrite bool_decide_eq_false_2 by done.
    by apply update_project_Some.
  - intros q Hq. split; [|intros v].
    + unfold AbstractProjectItem_get_value.
      rewrite (bind_Return _ _ _ _ _ (the_item_Some _ _ _ Hx')). cbn. by rewrite Hq.
    + unfold AbstractProjectItem_set_value.
      rewrite (bind_Return _ _ _ _ _ (the_item_Some _ _ _ Hx')). cbn. by rewrite Hq.
Qed.

Lemma C5_setattr_names_item_witness :
  Item.name <$> items (exec (AbstractProject_setattr 1%positive "height" (ObjItem 2%positive))
                            demo_heap) !! 2%positive
  = Some "height".
Proof.
  destruct (C5_setattr_names_item demo_heap 1%positive 2%positive
              (Item.mk (Some 1%positive) "width" PyNone ProjectItem) "height" eq_refl)
    as (_ & _ & Hnamed & _).
  exact (f_equal (fmap Item.name) Hnamed).
Defined.

(** ** Items, with or without a parent *)

Lemma item_get_value_run h x it :
  items h !! x = Some it → well_parented h it →
  AbstractProjectItem_get_value x h = (Return (stored h it), h).
Proof.
  intros Hx Hwp. unfold AbstractProjectItem_get_value, stored.
  rewrite (bind_Return _ _ _ _ _ (the_item_Some _ _ _ Hx)).
  unfold well_parented in Hwp.
  destruct (Item.parent it) as [p|]; [|done].
  destruct Hwp as [pr Hp]. rewrite (get_property_run _ _ _ _ Hp).
  unfold backing. by rewrite Hp.
Qed.

Lemma item_set_value_root h x it v :
  items h !! x = Some it → Item.parent it = None →
  AbstractProjectItem_set_value x v h
  = (Return tt, with_trace (λ t, t ++ [CheckChange x None])
                  (with_items <[x := Item.set_self_storage v it]> h)).
Proof.
  intros Hx Hpar. unfold AbstractProjectItem_set_value.
  rewrite (bind_Return _ _ _ _ _ (the_item_Some _ _ _ Hx)), Hpar.
  by rewrite (bind_Return _ _ _ _ _ (update_item_Some _ _ _ _ Hx)).
Qed.

Lemma item_set_then_get_delegating h x it p pr v :
  items h !! x = Some it → Item.parent it = Some p → projects h !! p = Some pr →
  ∃ h',
    AbstractProjectItem_set_value x v h = (Return tt, h') ∧
    backing p h' !! Item.name it = Some v ∧
    AbstractProjectItem_get_value x h' = (Return v, h').
Proof.
  intros Hx Hpar Hp.
  set (pr' := Project.set_value <[Item.name it := v]> pr).
  exists (wrote p pr' h).
  assert (Project.value pr' !! Item.name it = Some v) as Hv by apply lookup_insert_eq.
  split; [by apply item_set_value_delegates|].
  split; [by rewrite backing_wrote|].
  rewrite (item_get_value_delegates _ x it p pr'); [|done|done|apply projects_wrote].
  unfold dict_get. by rewrite Hv.
Qed.

Lemma item_set_then_get h x it v :
  items h !! x = Some it → well_parented h it →
  ∃ h',
    AbstractProjectItem_set_value x v h = (Return tt, h') ∧
    AbstractProjectItem_get_value x h' = (Return v, h') ∧
    (∀ p, Item.parent it = Some p → backing p h' !! Item.name it = Some v).
Proof.
  intros Hx Hwp. unfold well_parented in Hwp.
  destruct (Item.parent it) as [p|] eqn:Hpar.
  - destruct Hwp as [pr Hp].
    destruct (item_set_then_get_delegating h x it p pr v Hx Hpar Hp)
      as (h' & Hset & Hb & Hget).
    exists h'. split; [done|]. split; [done|]. by intros ? [= <-].
  - eexists. split; [by apply item_set_value_root|]. split; [|done].
    unfold AbstractProjectItem_get_value.
    erewrite bind_Return; last first.
    { apply the_item_Some. cbn. apply lookup_insert_eq. }
    cbn. by rewrite Hpar.
Qed.

(** ** Enum *)

Lemma canonical_members_subset cls : ∀ seen m,
  m ∈ canonical_members seen cls → m ∈ cls.
Proof.
  induction cls as [|s cls IH]; intros seen m; cbn; [done|].
  case_bool_decide.
  - intros Hm. right. by eapply IH.
  - intros [->|Hm]%elem_of_cons; [left | right; by eapply IH].
Qed.

Lemma canonical_members_covers cls : ∀ seen m,
  m ∈ cls → member_value m ∉ seen →
  ∃ m', m' ∈ canonical_members seen cls ∧ member_value m' = member_value m.
Proof.
  induction cls as [|s cls IH]; intros seen m Hm Hseen; [by apply elem_of_nil in Hm|].
  cbn. apply elem_of_cons in Hm as [->|Hm].
  - rewrite bool_decide_eq_false_2 by done. exists s. split; [left|done].
  - case_bool_decide as Hs.
    + by apply IH.
    + destruct (decide (member_value m = member_value s)) as [E|E].
      * exists s. split; [left|done].
      * destruct (IH (member_value s :: seen) m Hm) as (m' & Hm' & Hv).
        { intros [?|?]%elem_of_cons; done. }
        exists m'. split; [by right | done].
Qed.

Lemma canonical_members_no_alias cls : ∀ seen,
  NoDup (member_value <$> cls) →
  (∀ v, v ∈ seen → v ∉ member_value <$> cls) →
  canonical_members seen cls = cls.
Proof.
  induction cls as [|s cls IH]; intros seen Hnd Hseen; [done|].
  cbn in Hnd |- *. apply NoDup_cons in Hnd as [Hs Hnd].
  rewrite bool_decide_eq_false_2; last first.
  { intros Hin. apply (Hseen _ Hin). left. }
  f_equal. apply IH; [done|].
  intros v [->|Hv]%elem_of_cons; [done|].
  intros Hin. apply (Hseen _ Hv). by right.
Qed.

Lemma get_key_loop_default {D} ms raw (d : D) :
  (∀ m, m ∈ ms → member_value m ≠ raw) →
  get_key_loop ms (JStr raw) d = inr d.
Proof.
  induction ms as [|s ms IH]; intros Hno; [done|].
  cbn. rewrite bool_decide_eq_false_2.
  - apply IH. intros m Hm. apply Hno. by right.
  - intros E. apply (Hno s); [left | done].
Qed.

Lemma get_key_loop_found {D} ms raw (d : D) m :
  m ∈ ms → member_value m = raw →
  ∃ m', get_key_loop ms (JStr raw) d = inl m' ∧ m' ∈ ms ∧ member_value m' = raw.
Proof.
  induction ms as [|s ms IH]; intros Hm Hv; [by apply elem_of_nil in Hm|].
  cbn. case_bool_decide as Hs.
  - exists s. split; [done|]. split; [left | done].
  - apply elem_of_cons in Hm as [->|Hm]; [congruence|].
    destruct (IH Hm Hv) as (m' & E & Hm' & Hv').
    exists m'. split; [done|]. split; [by right | done].
Qed.

Lemma get_key_loop_no_alias {D} ms (d : D) m :
  NoDup (member_value <$> ms) → m ∈ ms →
  get_key_loop ms (JStr (member_value m)) d = inl m.
Proof.
  induction ms as [|s ms IH]; intros Hnd Hm; [by apply elem_of_nil in Hm|].
  cbn in Hnd |- *. apply NoDup_cons in Hnd as [Hs Hnd].
  apply elem_of_cons in Hm as [->|Hm].
  - by rewrite bool_decide_eq_true_2.
  - rewrite bool_decide_eq_false_2; [by apply IH|].
    intros E. apply Hs. rewrite <- E. by apply list_elem_of_fmap_2.
Qed.




(** ** TimePointItem *)

(** C7, as the code has it — the timestamp is stamped by [update], not by
    reading.  For a [TimePointItem] [x] with format [t_format]: reading its
    value returns the stored raw value and leaves the heap as it was, and so
    does asking for its [time] property; [x.time.update()] returns normally
    and stores the current time formatted with [t_format] through the
    item's [set_value], so that the next read of [x] returns that string. *)
Theorem C7_update_stamps_reading_is_pure
    (strftime : string → Z → string) h x it t_format :
  items h !! x = Some it →
  Item.class it = TimePointItem t_format →
  well_parented h it →
  let now := JStr (strftime t_format (clock h)) in
  AbstractProjectItem_get_value x h = (Return (stored h it), h) ∧
  TimePointItem_time x h = (Return (mkTimePointProperty x t_format), h) ∧
  ∃ h',
    TimePointProperty_update strftime (mkTimePointProperty x t_format) h = (Return tt, h') ∧
    AbstractProjectItem_get_value x h' = (Return now, h') ∧
    (∀ p, Item.parent it = Some p → backing p h' !! Item.name it = Some now).
Proof.
  intros Hx Hcls Hwp now.
  split; [by apply item_get_value_run|].
  split.
  { unfold TimePointItem_time.
    rewrite (bind_Return _ _ _ _ _ (the_item_Some _ _ _ Hx)). by rewrite Hcls. }
  destruct (item_set_then_get h x it now Hx Hwp) as (h' & Hset & Hget & Hb).
  exists h'. split; [|done].
  unfold TimePointProperty_update, StringProperty_set_value.
  erewrite bind_Return; last reflexivity. exact Hset.
Qed.

Lemma C7_update_stamps_reading_is_pure_witness :
  AbstractProjectItem_get_value 4%positive demo_heap = (Return PyNone, demo_heap) ∧
  ∃ h',
    TimePointProperty_update demo_strftime (mkTimePointProperty 4%positive "%H:%M") demo_heap
      = (Return tt, h') ∧
    AbstractProjectItem_get_value 4%positive h' = (Return (JStr "%H:%M"), h').
Proof.
  destruct (C7_update_stamps_reading_is_pure demo_strftime demo_heap 4%positive
              (Item.mk (Some 1%positive) "stamp" PyNone (TimePointItem "%H:%M")) "%H:%M")
    as (Hread & _ & h' & Hupdate & Hnext & _);
    [reflexivity | reflexivity | by eexists |].
  split; [exact Hread|]. exists h'. exact (conj Hupdate Hnext).
Defined.

(** C7, as the specification words it, does not hold: reading a timestamp
    item neither computes a time nor stores anything.  On the demo document the item
    [stamp] has nothing stored; reading it returns [None] and leaves the
    heap, and with it the backing dictionary, exactly as it was, so no read
    returned a formatted time that was persisted. *)
Lemma C7_reading_the_timestamp_stores_nothing :
  AbstractProjectItem_get_value 4%positive demo_heap = (Return PyNone, demo_heap) ∧
  TimePointItem_time 4%positive demo_heap
    = (Return (mkTimePointProperty 4%positive "%H:%M"), demo_heap) ∧
  backing 1%positive demo_heap !! "stamp" = None ∧
  ¬ (∃ now h',
       AbstractProjectItem_get_value 4%positive demo_heap = (Return (JStr now), h') ∧
       backing 1%positive h' !! "stamp" = Some (JStr now)).
Proof.
  split; [reflexivity|]. split; [reflexivity|]. split; [reflexivity|].
  intros (now & h' & Hread & _).
  assert (AbstractProjectItem_get_value 4%positive demo_heap = (Return PyNone, demo_heap))
    as E by reflexivity.
  rewrite E in Hread. discriminate Hread.
Qed.

(** ** Enum equality *)

(** C10 — an enum member equals a string exactly when that string is its
    name.  [m == s] is [m.name == s]: for a string [s] it holds if and only
    if [s] is the name of [m]; a member whose name differs from its value
    is therefore not equal to its own value; and no value that is not a
    string equals a member. *)
Theorem C10_enum_eq_compares_name (m : member) (s : string) :
  (Enum_eq m (JStr s) = true ↔ member_name m = s) ∧
  (member_name m ≠ member_value m → Enum_eq m (JStr (member_value m)) = false) ∧
  Enum_eq m (JStr (member_name m)) = true ∧
  (∀ x, (∀ t, x ≠ JStr t) → Enum_eq m x = false).
Proof.
  unfold Enum_eq. split; [|split; [|split]].
  - rewrite py_eq_str_true. split; congruence.
  - intros Hne. apply not_true_is_false. rewrite py_eq_str_true. congruence.
  - by rewrite py_eq_str_true.
  - intros x Hx. apply not_true_is_false. rewrite py_eq_str_true. apply Hx.
Qed.

Lemma C10_enum_eq_compares_name_witness :
  Enum_eq (Member "RED" "red") (JStr "red") = false ∧
  Enum_eq (Member "RED" "red") (JStr "RED") = true.
Proof.
  destruct (C10_enum_eq_compares_name (Member "RED" "red") "RED")
    as (_ & Hvalue & Hname & _).
  split; [apply Hvalue; discriminate | exact Hname].
Defined.

(** ** Keys are kept *)

#[local] Instance keys_kept_preorder : PreOrder keys_kept.
Proof.
  split.
  - intros h p pr Hp. by exists pr.
  - intros h1 h2 h3 H12 H23 p pr Hp.
    destruct (H12 p pr Hp) as (pr2 & Hp2 & Hsub2).
    destruct (H23 p pr2 Hp2) as (pr3 & Hp3 & Hsub3).
    exists pr3. split; [done|]. by etrans.
Qed.

Lemma keys_kept_same_projects h h' : projects h' = projects h → keys_kept h h'.
Proof. intros E p pr Hp. exists pr. by rewrite E. Qed.

Lemma keys_kept_trace f h : keys_kept h (with_trace f h).
Proof. by apply keys_kept_same_projects. Qed.

Lemma keys_kept_update_item x f : respects keys_kept (update_item x f).
Proof.
  apply respects_update_item; [apply _|]. intros h it _.
  by apply keys_kept_same_projects.
Qed.

Lemma keys_kept_update_project q f :
  (∀ pr, dom (Project.value pr) ⊆ dom (Project.value (f pr))) →
  respects keys_kept (update_project q f).
Proof.
  intros Hf. apply respects_update_project; [apply _|].
  intros h qr Hq p pr Hp. cbn.
  destruct (decide (p = q)) as [->|Hne].
  - exists (f qr). rewrite lookup_insert_eq. split; [done|].
    rewrite Hq in Hp. injection Hp as <-. apply Hf.
  - exists pr. by rewrite lookup_insert_ne.
Qed.

Lemma keys_kept_merge q d :
  respects keys_kept (update_project q (Project.set_value (λ m, d ∪ m))).
Proof.
  apply keys_kept_update_project. intros pr; cbn.
  rewrite dom_union. set_solver.
Qed.

Lemma keys_kept_set_property p name value :
  respects keys_kept (AbstractProject_set_property p name value).
Proof.
  apply respects_set_property;
    [apply _ | apply keys_kept_trace | apply keys_kept_merge].
Qed.

Lemma keys_kept_item_set_value x value :
  respects keys_kept (AbstractProjectItem_set_value x value).
Proof.
  pose proof keys_kept_trace as Htr.
  pose proof keys_kept_update_item as Hit.
  pose proof keys_kept_set_property as Hset.
  unfold AbstractProjectItem_set_value. respects_tac.
Qed.

Lemma keys_kept_item_get_value x :
  respects keys_kept (AbstractProjectItem_get_value x).
Proof.
  pose proof keys_kept_trace as Htr.
  unfold AbstractProjectItem_get_value. respects_tac.
Qed.

Lemma keys_kept_setattr p key value :
  key ≠ "value" → respects keys_kept (AbstractProject_setattr p key value).
Proof.
  intros Hkey.
  pose proof keys_kept_trace as Htr.
  pose proof keys_kept_update_item as Hit.
  unfold AbstractProject_setattr, AbstractProjectItem_set_name, object_setattr.
  rewrite (bool_decide_eq_false_2 (key = "value")) by done.
  assert (respects keys_kept
            (update_project p (Project.set_attrs <[key := value]>))) as Hbind.
  { by apply keys_kept_update_project. }
  respects_tac.
Qed.

Lemma keys_kept_new_item parent cls :
  respects keys_kept (AbstractProjectItem_init parent cls).
Proof.
  pose proof keys_kept_trace as Htr.
  assert (∀ q f, respects keys_kept (update_project q (Project.set_children f))) as Hch.
  { intros. by apply keys_kept_update_project. }
  assert (∀ q f, respects keys_kept (update_project q (Project.set_changed f))) as Hco.
  { intros. by apply keys_kept_update_project. }
  assert (∀ f, respects keys_kept (modify_heap (with_items f))) as Hit.
  { intros f. apply respects_modify. intros h. by apply keys_kept_same_projects. }
  unfold AbstractProjectItem_init, SignalSender_connect. respects_tac.
Qed.

Lemma new_project_run h path name :
  let self := fresh (dom (projects h)) in
  AbstractProject_init path name h
  = (Return self, with_projects <[self := Project.mk ∅ [] [] ∅ path name]> h) ∧
  projects h !! self = None.
Proof.
  split; [reflexivity|]. apply not_elem_of_dom, is_fresh.
Qed.

Lemma keys_kept_new_project path name :
  respects keys_kept (AbstractProject_init path name).
Proof.
  intros h p pr Hp.
  destruct (new_project_run h path name) as [Hrun Hfresh].
  unfold exec. rewrite Hrun. cbn.
  exists pr. split; [|done].
  rewrite lookup_insert_ne; [done|]. intros E. rewrite E in Hfresh. congruence.
Qed.

Lemma keys_kept_api_call json_load json_dump strftime c :
  is_bulk_replace c = false →
  respects keys_kept (run_api_call json_load json_dump strftime c).
Proof.
  intros Hc.
  pose proof keys_kept_trace as Htr.
  pose proof keys_kept_set_property as Hset.
  pose proof keys_kept_item_set_value as Hiset.
  pose proof keys_kept_item_get_value as Higet.
  pose proof keys_kept_new_item as Hnew.
  assert (∀ f, respects keys_kept (modify_heap (with_files f))) as Hfiles.
  { intros f. apply respects_modify. intros h. by apply keys_kept_same_projects. }
  destruct c; cbn in Hc; try discriminate Hc; cbn [run_api_call].
  - apply respects_discard; [apply _ | apply keys_kept_new_project].
  - unfold AbstractProject_get_value. respects_tac.
  - respects_tac.
  - respects_tac.
  - unfold AbstractProject_children. respects_tac.
  - apply keys_kept_setattr. by apply bool_decide_eq_false in Hc.
  - unfold SaveInterface_save. respects_tac.
  - unfold SaveInterface_is_existing. respects_tac.
  - respects_tac.
  - respects_tac.
  - respects_tac.
  - unfold EnumItem_type, EnumProperty_get_value, StringItemInterface_get_string.
    respects_tac.
  - unfold EnumItem_type, EnumProperty_set_value. respects_tac.
  - unfold TimePointItem_time, TimePointProperty_update, StringProperty_set_value.
    respects_tac.
Qed.

Lemma keys_kept_api_calls json_load json_dump strftime calls : ∀ h,
  Forall (λ c, is_bulk_replace c = false) calls →
  keys_kept h (run_api_calls json_load json_dump strftime calls h).
Proof.
  induction calls as [|c calls IH]; intros h Hcalls; [reflexivity|].
  apply Forall_cons in Hcalls as [Hc Hcalls]. cbn.
  etrans; [by apply (keys_kept_api_call json_load json_dump strftime c)|].
  by apply IH.
Qed.

Lemma replay_lookup k calls : ∀ d v,
  d !! k = Some v → replay calls d !! k = Some (last_written k calls v).
Proof.
  induction calls as [|[name value|name] calls IH]; intros d v Hd; cbn; [done| |by apply IH].
  apply IH. case_bool_decide as Hn.
  - subst name. apply lookup_insert_eq.
  - by rewrite lookup_insert_ne.
Qed.

Lemma replay_dom calls : ∀ d, dom d ⊆ dom (replay calls d).
Proof.
  induction calls as [|[name value|name] calls IH]; intros d; cbn; [done| |apply IH].
  etrans; [|apply IH]. rewrite dom_insert. set_solver.
Qed.

Lemma root_calls_run p calls : ∀ h pr,
  projects h !! p = Some pr →
  ∃ h', for_each (run_root_call p) calls h = (Return tt, h') ∧
        items h' = items h ∧ files h' = files h ∧
        Project.value <$> projects h' !! p = Some (replay calls (Project.value pr)).
Proof.
  induction calls as [|[name value|name] calls IH]; intros h pr Hp.
  - exists h. cbn. by rewrite Hp.
  - destruct (IH (wrote p (Project.set_value <[name := value]> pr) h) _
                (projects_wrote _ _ _)) as (h' & Hrun & Hi & Hf & Hv).
    exists h'. split; [|done]. cbn [for_each run_root_call].
    by rewrite (bind_Return _ _ _ _ _ (set_property_run _ _ _ name value Hp)).
  - destruct (IH h pr Hp) as (h' & Hrun & Hi & Hf & Hv).
    exists h'. split; [|done]. cbn [for_each run_root_call].
    erewrite bind_Return; [exact Hrun|].
    by rewrite (bind_Return _ _ _ _ _ (get_property_run _ _ _ name Hp)).
Qed.

(** C8 — keys written one at a time stay.  After [p.set_property(k, v)],
    any further sequence of [set_property] and [get_property] calls on [p]
    runs to the end without raising and leaves [k] in the backing
    dictionary with the value written to it last ([v] if none of the calls
    wrote [k]); every key the dictionary had before is still there.  More
    generally no entry point of project.py other than a bulk replace
    ([set_value], the assignment to [value], [load]) ever removes a key
    from any project, whether it returns or raises. *)
Theorem C8_key_retention
    (json_load : string → option json) (json_dump : gmap string json → string)
    (strftime : string → Z → string) h p pr k v calls :
  projects h !! p = Some pr →
  (∃ h',
     (_ ← AbstractProject_set_property p k v; for_each (run_root_call p) calls) h
       = (Return tt, h') ∧
     backing p h' !! k = Some (last_written k calls v) ∧
     AbstractProject_get_property p k h' = (Return (last_written k calls v), h') ∧
     dom (Project.value pr) ⊆ dom (backing p h')) ∧
  (∀ api_calls,
     Forall (λ c, is_bulk_replace c = false) api_calls →
     keys_kept h (run_api_calls json_load json_dump strftime api_calls h)).
Proof.
  intros Hp. split; [|intros; by apply keys_kept_api_calls].
  set (pr1 := Project.set_value <[k := v]> pr).
  destruct (root_calls_run p calls (wrote p pr1 h) pr1 (projects_wrote _ _ _))
    as (h' & Hrun & _ & _ & Hv).
  destruct (projects h' !! p) as [pr'|] eqn:Hp'; [|done].
  cbn in Hv. injection Hv as Hv.
  assert (backing p h' = replay calls (Project.value pr1)) as Hb.
  { unfold backing. by rewrite Hp'. }
  assert (backing p h' !! k = Some (last_written k calls v)) as Hk.
  { rewrite Hb. apply replay_lookup. apply lookup_insert_eq. }
  exists h'. split.
  { by rewrite (bind_Return _ _ _ _ _ (set_property_run _ _ _ k v Hp)). }
  split; [done|]. split.
  - rewrite (get_property_run _ _ _ k Hp'). unfold dict_get.
    unfold backing in Hk. rewrite Hp' in Hk. cbn in Hk. by rewrite Hk.
  - rewrite Hb. etrans; [|apply replay_dom].
    unfold pr1; cbn. rewrite dom_insert. set_solver.
Qed.

Lemma C8_key_retention_witness :
  ∃ h',
    (_ ← AbstractProject_set_property 1%positive "x" (JInt 1);
     for_each (run_root_call 1%positive)
       [SetProperty "y" (JInt 2); GetProperty "x"; SetProperty "x" (JInt 3);
        GetProperty "z"]) demo_heap
      = (Return tt, h') ∧
    AbstractProject_get_property 1%positive "x" h' = (Return (JInt 3), h').
Proof.
  destruct (C8_key_retention demo_json_load demo_json_dump demo_strftime
              demo_heap 1%positive demo_root "x" (JInt 1)
              [SetProperty "y" (JInt 2); GetProperty "x"; SetProperty "x" (JInt 3);
               GetProperty "z"] eq_refl)
    as ((h' & Hrun & _ & Hget & _) & _).
  exists h'. exact (conj Hrun Hget).
Defined.

(** * Further properties *)

(** ** Saving and loading *)





(** X2 — when a load succeeds.  On a project with a file name, [load]
    returns normally exactly when the file exists, parses to a dictionary
    and that dictionary maps the sentinel key to the sentinel string.  When
    it returns, the backing dictionary is the parsed one (no earlier key
    survives unless the file has it), one emission carries it to every
    subscriber in order, and files and items are untouched. *)
Theorem load_returns_iff
    (json_load : string → option json) h p pr a b check_key check_value :
  projects h !! p = Some pr →
  Project.path pr = Some a → Project.name pr = Some b →
  let accepted text d :=
    files h !! os_path_join a b = Some text ∧
    json_load text = Some (JObj d) ∧
    d !! check_key = Some (JStr check_value) in
  ((∃ h', SaveInterface_load json_load p check_key check_value h = (Return tt, h'))
   ↔ ∃ text d, accepted text d) ∧
  (∀ h', SaveInterface_load json_load p check_key check_value h = (Return tt, h') →
     ∃ text d, accepted text d ∧
       backing p h' = d ∧
       (∀ k, d !! k = None →
          AbstractProject_get_property p k h' = (Return PyNone, h')) ∧
       trace h' = trace h ++ Emit p d :: slots_called d (Project.changed pr) ∧
       files h' = files h ∧ items h' = items h).
Proof.
  intros Hp Ha Hb accepted.
  assert (∀ h', SaveInterface_load json_load p check_key check_value h = (Return tt, h') →
            ∃ text d, accepted text d ∧
                      h' = wrote p (Project.set_value (λ _, d) pr) h) as Hinv.
  { intros h'. rewrite load_run. unfold load_outcome. rewrite Hp, Ha, Hb.
    destruct (files h !! _) as [text|] eqn:Hf; [|discriminate].
    destruct (json_load text) as [[|?|?|? ?|?|?|d]|] eqn:Hj; try discriminate.
    destruct (py_eq_str _ _) eqn:E; [|discriminate].
    intros [= <-]. exists text, d. split; [|done].
    apply py_eq_str_true in E. unfold dict_get in E.
    destruct (d !! check_key) as [x|] eqn:Hk; cbn in E; [|done].
    subst x. done. }
  split; [split|].
  - intros [h' Hrun]. destruct (Hinv h' Hrun) as (text & d & Hacc & _). eauto.
  - intros (text & d & Hf & Hj & Hk).
    destruct (load_success json_load h p pr a b text d check_key check_value)
      as (h' & Hrun & _); [done..|]. eauto.
  - intros h' Hrun. destruct (Hinv h' Hrun) as (text & d & Hacc & ->).
    exists text, d. split; [done|].
    split; [by rewrite backing_wrote|]. split; [|done].
    intros k Hk. apply get_property_absent.
    + rewrite projects_wrote. by eexists.
    + by rewrite backing_wrote.
Qed.

Lemma load_returns_iff_witness :
  ¬ (∃ h', SaveInterface_load demo_json_load 1%positive "kind" "project"
             (demo_heap_with_file "{}") = (Return tt, h')).
Proof.
  destruct (load_returns_iff demo_json_load (demo_heap_with_file "{}")
              1%positive demo_root "/tmp" "demo.json" "kind" "project")
    as ([Hif _] & _); [reflexivity..|].
  intros Hret. destruct (Hif Hret) as (text & d & Hf & Hj & Hk).
  injection Hf as <-. injection Hj as <-. discriminate Hk.
Defined.

(** ** Items and their slots *)

(** X3 — an item without a parent is its own storage.  [x.set_value(v)] on
    an item with no parent returns, and [x.get_value()] then returns [v].
    The write runs the item's own [check_change] once, with no payload; no
    signal is emitted, no project and no other item is touched. *)
Theorem root_item_keeps_its_own_value h x it v :
  items h !! x = Some it →
  Item.parent it = None →
  ∃ h',
    AbstractProjectItem_set_value x v h = (Return tt, h') ∧
    AbstractProjectItem_get_value x h' = (Return v, h') ∧
    trace h' = trace h ++ [CheckChange x None] ∧
    emissions (trace h') = emissions (trace h) ∧
    projects h' = projects h ∧ files h' = files h ∧
    (∀ y, y ≠ x → items h' !! y = items h !! y).
Proof.
  intros Hx Hpar. eexists. split; [by apply item_set_value_root|].
  split.
  { unfold AbstractProjectItem_get_value.
    erewrite bind_Return; last first.
    { apply the_item_Some. cbn. apply lookup_insert_eq. }
    cbn. by rewrite Hpar. }
  split; [done|]. split.
  { change (emissions (trace h ++ [CheckChange x None]) = emissions (trace h)).
    rewrite emissions_app.
    change (emissions [CheckChange x None]) with 0. lia. }
  do 2 (split; [done|]). intros y Hy. cbn. by rewrite lookup_insert_ne.
Qed.

Lemma root_item_keeps_its_own_value_witness :
  ∃ h',
    AbstractProjectItem_set_value 1%positive (JInt 7) lone_item_heap = (Return tt, h') ∧
    AbstractProjectItem_get_value 1%positive h' = (Return (JInt 7), h').
Proof.
  destruct (root_item_keeps_its_own_value lone_item_heap 1%positive
              (Item.mk None "" PyNone ProjectItem) (JInt 7))
    as (h' & Hset & Hget & _); [reflexivity..|].
  exists h'. exact (conj Hset Hget).
Defined.

(** X4 — items of one parent meet in its dictionary by name.  After
    [x.set_value(v)], an item [y] of the same parent reads [v] if it has the
    name of [x] (two items that were never named share the entry under the
    empty name), and reads what it read before if its name is another. *)
Theorem sibling_items_meet_by_name h x y ix iy p pr v :
  items h !! x = Some ix → items h !! y = Some iy →
  Item.parent ix = Some p → Item.parent iy = Some p →
  projects h !! p = Some pr →
  ∃ h',
    AbstractProjectItem_set_value x v h = (Return tt, h') ∧
    (Item.name iy = Item.name ix →
       AbstractProjectItem_get_value y h' = (Return v, h')) ∧
    (Item.name iy ≠ Item.name ix →
       AbstractProjectItem_get_value y h' = (Return (stored h iy), h') ∧
       AbstractProjectItem_get_value y h = (Return (stored h iy), h)).
Proof.
  intros Hx Hy Hpx Hpy Hp.
  set (pr' := Project.set_value <[Item.name ix := v]> pr).
  exists (wrote p pr' h).
  assert (AbstractProjectItem_get_value y (wrote p pr' h)
          = (Return (dict_get (Project.value pr') (Item.name iy)), wrote p pr' h)) as Hread.
  { apply (item_get_value_delegates _ y iy p pr'); [done|done|apply projects_wrote]. }
  split; [by apply item_set_value_delegates|]. split.
  - intros Hn. rewrite Hread, Hn. unfold dict_get. cbn. by rewrite lookup_insert_eq.
  - intros Hn.
    assert (stored h iy = dict_get (Project.value pr) (Item.name iy)) as ->.
    { unfold stored, backing. by rewrite Hpy, Hp. }
    split; [|by apply (item_get_value_delegates _ y iy p pr)].
    rewrite Hread. unfold dict_get. cbn. by rewrite lookup_insert_ne.
Qed.

Lemma sibling_items_meet_by_name_witness :
  ∃ h',
    AbstractProjectItem_set_value 2%positive (JInt 10) demo_heap = (Return tt, h') ∧
    AbstractProjectItem_get_value 3%positive h' = (Return (JStr "purple"), h').
Proof.
  destruct (sibling_items_meet_by_name demo_heap 2%positive 3%positive
              (Item.mk (Some 1%positive) "width" PyNone ProjectItem)
              (Item.mk (Some 1%positive) "mode" PyNone (EnumItem (Some Color)))
              1%positive demo_root (JInt 10))
    as (h' & Hset & _ & Hother); [reflexivity..|].
  exists h'. split; [exact Hset|]. by apply Hother.
Defined.

(** ** A bulk replace that fails *)

(** X5 — a bulk replace that fails has already cleared.  [p.set_value(v)]
    clears before it updates: with [None] or an [int] the update raises
    [TypeError], with a non-empty string it raises [ValueError], and in
    both cases the backing dictionary is left empty and nothing is emitted.
    With the empty string the update adds nothing and the call completes:
    the dictionary is empty and the subscribers are told so. *)
Theorem failed_bulk_replace_has_cleared h p pr :
  projects h !! p = Some pr →
  let cleared := Project.set_value (λ _, ∅) pr in
  let h0 := with_projects <[p := cleared]> h in
  AbstractProject_set_value p ObjNone h = (Raise TypeError, h0) ∧
  (∀ z, AbstractProject_set_value p (ObjInt z) h = (Raise TypeError, h0)) ∧
  (∀ c s, AbstractProject_set_value p (ObjStr (String c s)) h = (Raise ValueError, h0)) ∧
  AbstractProject_set_value p (ObjStr "") h = (Return tt, wrote p cleared h) ∧
  backing p h0 = ∅ ∧ trace h0 = trace h.
Proof.
  intros Hp cleared h0.
  assert (projects h0 !! p = Some cleared) as Hp0 by apply lookup_insert_eq.
  assert (∀ value,
            AbstractProject_set_value p value h
            = (_ ← dict_update (BackingOf p) value;
               d ← ValueModel_value p; SignalSender_emit p d) h0) as Hstart.
  { intros value. unfold AbstractProject_set_value.
    rewrite (bind_Return _ _ _ _ _ (get_value_Some _ _ _ Hp)).
    erewrite bind_Return; last by apply update_project_Some.
    by rewrite (bind_Return _ _ _ _ _ (get_value_Some _ _ _ Hp0)). }
  split; [by rewrite Hstart|]. split; [intros z; by rewrite Hstart|].
  split; [intros c s; by rewrite Hstart|]. split.
  - rewrite Hstart. erewrite bind_Return; last reflexivity.
    rewrite (bind_Return _ _ _ _ _ (get_value_Some _ _ _ Hp0)).
    by rewrite (emit_backing _ _ _ Hp0).
  - split; [|done]. unfold backing. by rewrite Hp0.
Qed.

Lemma failed_bulk_replace_has_cleared_witness :
  ∃ h0,
    AbstractProject_set_value 1%positive ObjNone demo_heap = (Raise TypeError, h0) ∧
    backing 1%positive h0 = ∅ ∧ trace h0 = [].
Proof.
  destruct (failed_bulk_replace_has_cleared demo_heap 1%positive demo_root)
    as (Hnone & _ & _ & _ & Hback & Htrace); [reflexivity|].
  eexists. exact (conj Hnone (conj Hback Htrace)).
Defined.

(** ** Enum values and enum items *)

Lemma canonical_values_fresh cls : ∀ seen m,
  m ∈ canonical_members seen cls → member_value m ∉ seen.
Proof.
  induction cls as [|s cls IH]; intros seen m; cbn; [by intros ?%elem_of_nil|].
  case_bool_decide as Hs; [by apply IH|].
  intros [->|Hm]%elem_of_cons; [done|].
  intros Hin. apply (IH _ _ Hm). by right.
Qed.

Lemma canonical_values_NoDup cls : ∀ seen,
  NoDup (member_value <$> canonical_members seen cls).
Proof.
  induction cls as [|s cls IH]; intros seen; cbn; [apply NoDup_nil_2|].
  case_bool_decide as Hs; [apply IH|].
  cbn. apply NoDup_cons. split; [|apply IH].
  intros (m & Hv & Hm)%list_elem_of_fmap.
  apply (canonical_values_fresh _ _ _ Hm). rewrite <- Hv. left.
Qed.

Lemma get_key_loop_inl {D} ms x (d : D) m :
  get_key_loop ms x d = inl m → m ∈ ms ∧ x = JStr (member_value m).
Proof.
  induction ms as [|s ms IH]; cbn; [discriminate|].
  destruct (py_eq_str x (member_value s)) eqn:E.
  - intros [= <-]. split; [left | by apply py_eq_str_true].
  - intros H. destruct (IH H) as [Hm Hx]. split; [by right | done].
Qed.

Lemma get_key_loop_not_a_string {D} ms x (d : D) :
  (∀ t, x ≠ JStr t) → get_key_loop ms x d = inr d.
Proof.
  intros Hx. induction ms as [|s ms IH]; cbn; [done|].
  destruct (py_eq_str x (member_value s)) eqn:E; [|done].
  apply py_eq_str_true in E. by destruct (Hx (member_value s)).
Qed.

(** X6 — the list of values and the lookup by value agree.
    [get_values_list()] holds the value of every member, each once.
    [get_key_by_value(raw, default)] returns a member exactly for the
    strings of that list, and the member it returns has that string as its
    value; for every other string, and for anything that is not a string,
    it returns the default. *)
Theorem enum_values_and_lookup_agree {D} (cls : EnumClass) (d : D) :
  NoDup (Enum_get_values_list cls) ∧
  (∀ v, v ∈ Enum_get_values_list cls ↔ ∃ m, m ∈ cls ∧ member_value m = v) ∧
  (∀ raw, raw ∈ Enum_get_values_list cls
          ↔ ∃ m, Enum_get_key_by_value cls (JStr raw) d = inl m) ∧
  (∀ raw, raw ∉ Enum_get_values_list cls
          ↔ Enum_get_key_by_value cls (JStr raw) d = inr d) ∧
  (∀ x m, Enum_get_key_by_value cls x d = inl m →
          m ∈ cls ∧ x = JStr (member_value m)) ∧
  (∀ x, (∀ t, x ≠ JStr t) → Enum_get_key_by_value cls x d = inr d).
Proof.
  unfold Enum_get_values_list, Enum_get_key_by_value, Enum_iter.
  assert (∀ v, v ∈ member_value <$> canonical_members [] cls
               ↔ ∃ m, m ∈ cls ∧ member_value m = v) as Hvalues.
  { intros v. split.
    - intros (m & -> & Hm)%list_elem_of_fmap. exists m.
      split; [by eapply canonical_members_subset | done].
    - intros (m & Hm & <-).
      destruct (canonical_members_covers cls [] m Hm) as (c & Hc & <-);
        [by intros ?%elem_of_nil|].
      by apply list_elem_of_fmap_2. }
  assert (∀ raw, raw ∈ member_value <$> canonical_members [] cls
                 ↔ ∃ m, get_key_loop (canonical_members [] cls) (JStr raw) d = inl m)
    as Hfound.
  { intros raw. split.
    - intros (c & -> & Hc)%list_elem_of_fmap.
      destruct (get_key_loop_found _ (member_value c) d c Hc eq_refl) as (m & E & _).
      by exists m.
    - intros (m & E). apply get_key_loop_inl in E as [Hm [= ->]].
      by apply list_elem_of_fmap_2. }
  split; [apply canonical_values_NoDup|]. split; [done|]. split; [done|].
  split; [|split].
  - intros raw. split.
    + intros Hno. apply get_key_loop_default. intros m Hm <-.
      apply Hno. by apply list_elem_of_fmap_2.
    + intros E Hin. apply Hfound in Hin as [m Hm]. congruence.
  - intros x m E. apply get_key_loop_inl in E as [Hm Hx].
    split; [by eapply canonical_members_subset | done].
  - intros x Hx. by apply get_key_loop_not_a_string.
Qed.

Lemma enum_values_and_lookup_agree_witness :
  Enum_get_values_list Color = ["red"; "green"] ∧
  Enum_get_key_by_value Color (JInt 3) PyNone = inr PyNone.
Proof.
  destruct (enum_values_and_lookup_agree Color PyNone) as (_ & _ & _ & _ & _ & Hother).
  split; [reflexivity|]. apply Hother. discriminate.
Defined.

Lemma item_set_value_keeps_item h x it v :
  items h !! x = Some it → well_parented h it →
  ∃ h' it',
    AbstractProjectItem_set_value x v h = (Return tt, h') ∧
    items h' !! x = Some it' ∧
    Item.class it' = Item.class it ∧ Item.parent it' = Item.parent it ∧
    Item.name it' = Item.name it ∧
    well_parented h' it' ∧ stored h' it' = v.
Proof.
  intros Hx Hwp. unfold well_parented in Hwp.
  destruct (Item.parent it) as [p|] eqn:Hpar.
  - destruct Hwp as [pr Hp].
    set (pr' := Project.set_value <[Item.name it := v]> pr).
    exists (wrote p pr' h), it.
    split; [by apply item_set_value_delegates|]. split; [done|].
    do 3 (split; [done|]). split.
    + unfold well_parented. rewrite Hpar, projects_wrote. by eexists.
    + unfold stored. rewrite Hpar, backing_wrote. unfold dict_get. cbn.
      by rewrite lookup_insert_eq.
  - eexists _, (Item.set_self_storage v it).
    split; [by apply item_set_value_root|].
    split; [cbn; apply lookup_insert_eq|].
    do 3 (split; [done|]). split.
    + unfold well_parented. cbn. by rewrite Hpar.
    + unfold stored. cbn. by rewrite Hpar.
Qed.

(** X7 — an enum item gives back the member it was given.  For an enum
    item over the class [cls] and a member [m] of it,
    [x.type.set_value(m)] returns and stores the value of [m] as the item's
    raw string; [x.type.get_value()] then returns a member of [cls] with
    that value, which is [m] itself when no two members share a value. *)
Theorem enum_item_round_trip h x it cls m :
  items h !! x = Some it →
  Item.class it = EnumItem (Some cls) →
  well_parented h it →
  m ∈ cls →
  ∃ h' m',
    (prop ← EnumItem_type x; EnumProperty_set_value prop m) h = (Return tt, h') ∧
    AbstractProjectItem_get_value x h' = (Return (JStr (member_value m)), h') ∧
    (prop ← EnumItem_type x; EnumProperty_get_value prop) h' = (Return (inl m'), h') ∧
    m' ∈ cls ∧ member_value m' = member_value m ∧
    (NoDup (member_value <$> cls) → m' = m).
Proof.
  intros Hx Hcls Hwp Hm.
  destruct (item_set_value_keeps_item h x it (JStr (member_value m)) Hx Hwp)
    as (h' & it' & Hset & Hx' & Hcls' & _ & _ & Hwp' & Hst').
  rewrite Hcls in Hcls'.
  assert (EnumItem_type x h' = (Return (mkEnumProperty x (Some cls)), h')) as Htype'.
  { unfold EnumItem_type.
    by rewrite (bind_Return _ _ _ _ _ (the_item_Some _ _ _ Hx')), Hcls'. }
  assert (EnumItem_type x h = (Return (mkEnumProperty x (Some cls)), h)) as Htype0.
  { unfold EnumItem_type.
    by rewrite (bind_Return _ _ _ _ _ (the_item_Some _ _ _ Hx)), Hcls. }
  assert (AbstractProjectItem_get_value x h' = (Return (JStr (member_value m)), h'))
    as Hread.
  { rewrite (item_get_value_run _ _ _ Hx' Hwp'). by rewrite Hst'. }
  destruct (canonical_members_covers cls [] m Hm) as (c & Hc & Hcv);
    [by intros ?%elem_of_nil|].
  destruct (get_key_loop_found _ (member_value m) PyNone c Hc Hcv)
    as (m' & E & Hm' & Hv').
  exists h', m'. split.
  { rewrite (bind_Return _ _ _ _ _ Htype0). exact Hset. }
  split; [done|]. split.
  { rewrite (bind_Return _ _ _ _ _ Htype').
    unfold EnumProperty_get_value, StringItemInterface_get_string. cbn.
    rewrite (bind_Return _ _ _ _ _ Hread).
    unfold Enum_get_key_by_value, Enum_iter. by rewrite E. }
  split; [by eapply canonical_members_subset|]. split; [done|].
  intros Hnd.
  rewrite canonical_members_no_alias in E; [|done|by intros ? ?%elem_of_nil].
  rewrite (get_key_loop_no_alias cls PyNone m Hnd Hm) in E. congruence.
Qed.

Lemma enum_item_round_trip_witness :
  ∃ h',
    (prop ← EnumItem_type 3%positive; EnumProperty_set_value prop (Member "GREEN" "green"))
      demo_heap = (Return tt, h') ∧
    (prop ← EnumItem_type 3%positive; EnumProperty_get_value prop) h'
      = (Return (inl (Member "GREEN" "green")), h').
Proof.
  destruct (enum_item_round_trip demo_heap 3%positive
              (Item.mk (Some 1%positive) "mode" PyNone (EnumItem (Some Color)))
              Color (Member "GREEN" "green"))
    as (h' & m' & Hset & _ & Hget & _ & _ & Hsame);
    [reflexivity | reflexivity | by eexists | right; left |].
  rewrite Hsame in Hget by by apply (bool_decide_unpack _).
  exists h'. exact (conj Hset Hget).
Defined.
